(** * StACSOS: the syscall dispatcher, [readdir] and the [ls] front end

    A shallow embedding of [handle_syscall], [do_readdir], [do_open] and
    [operation_result_to_syscall_result] (kernel syscall entry point), of the
    [dirent] record (stacsos/dirent.h) and of [main] of the user program
    [ls], followed by the properties of the specification that concern them.

    Conventions.
    - A [u64] is a [Z]; every addition, subtraction and multiplication the
      source performs on [u64] or on pointers is wrapped with [wrap64].
    - A C string is the list of its bytes before the terminating NUL; a
      [const char *] that may be null is an [option cstring].
    - Kernel collaborators that live outside these files (the VFS, the
      address space, the object manager, ...) are fields of the record
      [kernel]; declarations of headers outside these files are fields of
      the record [headers].
    - Calls with an effect are recorded, in program order, in a trace of
      [event]s; a path of the source with undefined behaviour (a store
      outside an array, a null dereference) is the outcome [Undefined]. *)

From Stdlib Require Import ZArith List Ascii String Lia.
From stdpp Require Import base option list gmap.

Open Scope Z_scope.

(** ** Machine integers and C strings *)

Definition wrap64 (z : Z) : Z := z mod 2 ^ 64.
Definition wrap32 (z : Z) : Z := z mod 2 ^ 32.

Definition cstring := list ascii.

Definition NUL : ascii := Ascii.zero.

(** [s.c_str()]: the bytes of [s] followed by the terminator. *)
Definition c_str (s : cstring) : list ascii := s ++ [NUL].

Definition lit (s : string) : cstring := list_ascii_of_string s.

#[global] Instance ascii_eq_dec : EqDecision ascii := Ascii.ascii_dec.

(** ** stacsos/dirent.h *)

Definition MAX_FILE_NAME_LENGTH : nat := 64.

Record dirent := {
  ent_name : list ascii;   (* char name[MAX_FILE_NAME_LENGTH] *)
  ent_type : ascii;        (* char type *)
  ent_size : Z             (* unsigned int size *)
}.

(** [sizeof(dirent)] on x86-64: 64 bytes of name, one byte of type, three
    bytes of padding so that [size] is 4-aligned, four bytes of size. *)
Definition sizeof_dirent : Z := 64 + 1 + 3 + 4.

(** ** Arrays with checked bounds

    A store outside the array is undefined behaviour in the source; here it
    yields [None]. *)

Definition array_store (a : list ascii) (i : nat) (v : ascii) : option (list ascii) :=
  if decide (i < length a)%nat then Some (<[i := v]> a) else None.

(** [memops::memcpy(dst, src, n)] into an array [dst] from a buffer [src]. *)
Definition array_memcpy (dst src : list ascii) (n : nat) : option (list ascii) :=
  if decide (n <= length dst /\ n <= length src)%nat
  then Some (take n src ++ drop n dst)
  else None.

(** ** Filesystem nodes *)

Inductive fs_node_kind := file | directory.

#[global] Instance fs_node_kind_eq_dec : EqDecision fs_node_kind.
Proof. solve_decision. Defined.

#[local] Set Warnings "-register-all".

(** What [do_readdir] reads of a node: [kind()], [name()], [size()] and,
    after [ensure_loaded()], [children()] in iteration order. *)
Inductive fs_node := FsNode {
  node_kind : fs_node_kind;
  node_name : cstring;
  node_size : Z;
  node_children : list fs_node
}.

(** ** Building one record (do_readdir, lines 105-121) *)

(** Lines 108-117: the name is copied into the zero-initialised [ent.name]
    and terminated. *)
Definition copy_name (nm : cstring) : option (list ascii) :=
  let length0 := length nm in
  let length1 := if decide (MAX_FILE_NAME_LENGTH <= length0)%nat
                 then (MAX_FILE_NAME_LENGTH - 1)%nat else length0 in
  name1 ← array_memcpy (replicate MAX_FILE_NAME_LENGTH NUL) (c_str nm) length1;
  array_store name1 length1 NUL.

Definition make_dirent (child : fs_node) : option dirent :=
  name ← copy_name (node_name child);
  Some {| ent_name := name;
          ent_type := if decide (node_kind child = directory) then "d"%char else "f"%char;
          ent_size := if decide (node_kind child = file)
                      then wrap32 (node_size child) else 0 |}.

(** The record the specification describes for a child, written without
    array stores: used to state what [make_dirent] computes. *)
Definition truncated_name (nm : cstring) : list ascii :=
  if decide (64 <= length nm)%nat
  then take 63 nm ++ [NUL]
  else nm ++ NUL :: replicate (63 - length nm) NUL.

Definition dirent_of (child : fs_node) : dirent :=
  {| ent_name := truncated_name (node_name child);
     ent_type := match node_kind child with directory => "d"%char | file => "f"%char end;
     ent_size := match node_kind child with
                 | file => wrap32 (node_size child)
                 | directory => 0
                 end |}.

(** ** Results, opcodes, regions, objects *)

Module syscall_result_code.
Inductive t := ok | not_found | not_supported.
End syscall_result_code.

Record syscall_result := {
  code : syscall_result_code.t;
  data : Z
}.

(** [operation_result { code, data }] of the object subsystem; [op_code] is
    the integer value of its [operation_result_code]. *)
Record operation_result := {
  op_code : Z;
  op_data : Z
}.

Module syscall_numbers.
Inductive t :=
  | exit | set_fs | set_gs | open | close | write | pwrite | read | pread
  | ioctl | alloc_mem | start_process | wait_for_process | start_thread
  | stop_current_thread | join_thread | sleep | poweroff | readdir.
End syscall_numbers.

Record region := {
  rgn_base : Z;      (* rgn->base *)
  rgn_size : Z;      (* rgn->size *)
  rgn_flags : Z;     (* rgn->flags, a set of bits *)
  rgn_storage : Z    (* rgn->storage->base_address_ptr() *)
}.

(** The operations of a kernel object, each with the arguments the
    dispatcher passes. *)
Record object := {
  obj_write : Z -> Z -> operation_result;
  obj_pwrite : Z -> Z -> Z -> operation_result;
  obj_read : Z -> Z -> operation_result;
  obj_pread : Z -> Z -> Z -> operation_result;
  obj_ioctl : Z -> Z -> Z -> operation_result;
  obj_wait_for_status_change : operation_result;
  obj_join : operation_result
}.

(** ** Effects *)

Inductive event :=
  | ev_lookup (path : cstring)                  (* vfs::get().lookup(path) *)
  | ev_ensure_loaded                            (* fatnode->ensure_loaded() *)
  | ev_memcpy (kdst : Z) (ent : dirent)         (* memcpy(kdst, &ent, sizeof(ent)) *)
  | ev_dprintf (format : string) (args : list Z)
  | ev_process_stop
  | ev_fsbase_write (v : Z)
  | ev_gsbase_write (v : Z)
  | ev_create_file_object (f : Z)
  | ev_free_object (id : Z)
  | ev_object_call (id : Z) (op : syscall_numbers.t) (args : list Z)
  | ev_alloc_region (size flags : Z)
  | ev_create_process (path args : Z)
  | ev_process_start (proc : Z)
  | ev_create_process_object (proc : Z)
  | ev_create_thread (entry arg : Z)
  | ev_thread_start (thr : Z)
  | ev_create_thread_object (thr : Z)
  | ev_thread_stop
  | ev_int (vector : Z)
  | ev_sleep_ms (ms : Z)
  | ev_outw (port value : Z).

Inductive outcome (A : Type) :=
  | Undefined
  | Returns (a : A) (trace : list event).
Arguments Undefined {A}.
Arguments Returns {A} a trace.

#[global] Instance outcome_ret : MRet outcome := fun A a => Returns a [].

#[global] Instance outcome_bind : MBind outcome := fun A B f m =>
  match m with
  | Undefined => Undefined
  | Returns a t1 =>
    match f a with
    | Undefined => Undefined
    | Returns b t2 => Returns b (t1 ++ t2)
    end
  end.

Definition emit (e : event) : outcome unit := Returns tt [e].

(** A step that is undefined behaviour when its argument is [None]. *)
Definition defined {A} (o : option A) : outcome A :=
  match o with
  | Some a => mret a
  | None => Undefined
  end.

(** ** Declarations and collaborators outside these files *)

Record headers := {
  (* stacsos/syscalls.h: the enumerator a wire-level opcode value denotes *)
  syscall_of_index : Z -> option syscall_numbers.t;
  (* the cast [(syscall_result_code)o.code] *)
  syscall_result_code_of : Z -> syscall_result_code.t;
  (* region_flags::writable and region_flags::readwrite *)
  region_flags_writable : Z;
  region_flags_readwrite : Z;
  PAGE_ALIGN_UP : Z -> Z
}.

Record kernel := {
  vfs_lookup : cstring -> option fs_node;       (* vfs::get().lookup *)
  node_open : fs_node -> option Z;              (* node->open() *)
  regions : list region;                        (* the caller's address space *)
  alloc_region : Z -> Z -> option region;
  user_cstr : Z -> cstring;                     (* the string at a non-null pointer *)
  objects : gmap Z object;                      (* the caller's handle table *)
  create_file_object : Z -> Z;                  (* id() of the new object *)
  create_process_object : Z -> Z;
  create_thread_object : Z -> Z;
  create_process : Z -> Z -> option Z;
  create_thread : Z -> Z -> option Z
}.

Section Kernel.

Context (hdr : headers) (K : kernel).

(** The value of the cast [(const char * )arg]. *)
Definition cstr_at (arg : Z) : option cstring :=
  if decide (arg = 0) then None else Some (user_cstr K arg).

Definition region_contains (rgn : region) (a : Z) : Prop :=
  rgn_base rgn <= a < rgn_base rgn + rgn_size rgn.

#[global] Instance region_contains_dec rgn a : Decision (region_contains rgn a).
Proof. unfold region_contains. apply _. Defined.

(** Modelled from the spec: [address_space::get_region_from_address] is not
    in these files; the specification has it "look up the memory region
    containing the target address in the process's region set". *)
Definition get_region_from_address (a : Z) : option region :=
  List.find (fun rgn => bool_decide (region_contains rgn a)) (regions K).

Definition result (c : syscall_result_code.t) (d : Z) : syscall_result :=
  {| code := c; data := d |}.

(** [do_open]; the lookup reads the string [path] points to, which is
    undefined for a null pointer. *)
Definition do_open (path : option cstring) : outcome syscall_result :=
  p ← defined path;
  _ ← emit (ev_lookup p);
  match vfs_lookup K p with
  | None => mret (result syscall_result_code.not_found 0)
  | Some node =>
    match node_open K node with
    | None => mret (result syscall_result_code.not_supported 0)
    | Some f =>
      _ ← emit (ev_create_file_object f);
      mret (result syscall_result_code.ok (create_file_object K f))
    end
  end.

Definition operation_result_to_syscall_result (o : operation_result) : syscall_result :=
  let rc := syscall_result_code_of hdr (op_code o) in
  result rc (op_data o).

(** Lines 133-147 of [do_readdir]: the checks on the destination of one
    record; [Some kdst] is the kernel address the record is copied to,
    [None] the return of [not_supported]. *)
Definition validate_dst (dst_address : Z) : option Z :=
  match get_region_from_address dst_address with
  | None => None
  | Some rgn =>
    if decide (wrap64 (rgn_base rgn + rgn_size rgn) < wrap64 (dst_address + sizeof_dirent))
    then None
    else if decide (Z.land (rgn_flags rgn) (region_flags_writable hdr) = 0)
    then None
    else
      let offset := wrap64 (dst_address - rgn_base rgn) in
      Some (wrap64 (rgn_storage rgn + offset))
  end.

(** Lines 100-151: the loop over the children, from the child at the head
    of [children] on, [counter] records having been written. *)
Fixpoint readdir_loop (user_buf max_entries : Z) (children : list fs_node) (counter : Z)
  : outcome syscall_result :=
  match children with
  | [] => mret (result syscall_result_code.ok counter)
  | child :: rest =>
    if decide (max_entries <= counter)
    then mret (result syscall_result_code.ok counter)
    else
      ent ← defined (make_dirent child);
      let dst_address := wrap64 (user_buf + sizeof_dirent * counter) in
      match validate_dst dst_address with
      | None => mret (result syscall_result_code.not_supported 0)
      | Some kdst =>
        _ ← emit (ev_memcpy kdst ent);
        readdir_loop user_buf max_entries rest (wrap64 (counter + 1))
      end
  end.

(** Lines 80-153, once [node] has been looked up under [target]. The
    [static_cast] of line 89 yields a non-null pointer from a non-null one,
    so the test of line 90 never holds. *)
Definition readdir_node (target : cstring) (user_buf max_entries : Z)
  : outcome syscall_result :=
  _ ← emit (ev_lookup target);
  match vfs_lookup K target with
  | None => mret (result syscall_result_code.not_found 0)
  | Some node =>
    if decide (node_kind node <> directory)
    then mret (result syscall_result_code.not_supported 0)
    else
      _ ← emit ev_ensure_loaded;
      readdir_loop user_buf max_entries (node_children node) 0
  end.

Definition do_readdir (path : option cstring) (user_buf max_entries : Z)
  : outcome syscall_result :=
  match path with
  | None => readdir_node (lit "/") user_buf max_entries
  | Some [] => readdir_node (lit "/") user_buf max_entries
  | Some ((c :: _) as p) =>
    if decide (c = "/"%char)
    then readdir_node p user_buf max_entries
    else mret (result syscall_result_code.not_supported 0)
  end.

Definition handle_syscall (index arg0 arg1 arg2 arg3 : Z) : outcome syscall_result :=
  match syscall_of_index hdr index with
  | Some syscall_numbers.exit =>
    _ ← emit ev_process_stop;
    mret (result syscall_result_code.ok 0)
  | Some syscall_numbers.set_fs =>
    _ ← emit (ev_fsbase_write arg0);
    mret (result syscall_result_code.ok 0)
  | Some syscall_numbers.set_gs =>
    _ ← emit (ev_gsbase_write arg0);
    mret (result syscall_result_code.ok 0)
  | Some syscall_numbers.open =>
    do_open (cstr_at arg0)
  | Some syscall_numbers.close =>
    _ ← emit (ev_free_object arg0);
    mret (result syscall_result_code.ok 0)
  | Some syscall_numbers.write =>
    match objects K !! arg0 with
    | None => mret (result syscall_result_code.not_found 0)
    | Some o =>
      _ ← emit (ev_object_call arg0 syscall_numbers.write [arg1; arg2]);
      mret (operation_result_to_syscall_result (obj_write o arg1 arg2))
    end
  | Some syscall_numbers.pwrite =>
    match objects K !! arg0 with
    | None => mret (result syscall_result_code.not_found 0)
    | Some o =>
      _ ← emit (ev_object_call arg0 syscall_numbers.pwrite [arg1; arg2; arg3]);
      mret (operation_result_to_syscall_result (obj_pwrite o arg1 arg2 arg3))
    end
  | Some syscall_numbers.read =>
    match objects K !! arg0 with
    | None => mret (result syscall_result_code.not_found 0)
    | Some o =>
      _ ← emit (ev_object_call arg0 syscall_numbers.read [arg1; arg2]);
      mret (operation_result_to_syscall_result (obj_read o arg1 arg2))
    end
  | Some syscall_numbers.pread =>
    match objects K !! arg0 with
    | None => mret (result syscall_result_code.not_found 0)
    | Some o =>
      _ ← emit (ev_object_call arg0 syscall_numbers.pread [arg1; arg2; arg3]);
      mret (operation_result_to_syscall_result (obj_pread o arg1 arg2 arg3))
    end
  | Some syscall_numbers.ioctl =>
    match objects K !! arg0 with
    | None => mret (result syscall_result_code.not_found 0)
    | Some o =>
      _ ← emit (ev_object_call arg0 syscall_numbers.ioctl [arg1; arg2; arg3]);
      mret (operation_result_to_syscall_result (obj_ioctl o arg1 arg2 arg3))
    end
  | Some syscall_numbers.alloc_mem =>
    let size := PAGE_ALIGN_UP hdr arg0 in
    _ ← emit (ev_alloc_region size (region_flags_readwrite hdr));
    rgn ← defined (alloc_region K size (region_flags_readwrite hdr));
    mret (result syscall_result_code.ok (rgn_base rgn))
  | Some syscall_numbers.start_process =>
    _ ← emit (ev_dprintf "start process: %s %s" [arg0; arg1]);
    _ ← emit (ev_create_process arg0 arg1);
    match create_process K arg0 arg1 with
    | None => mret (result syscall_result_code.not_found 0)
    | Some new_proc =>
      _ ← emit (ev_process_start new_proc);
      _ ← emit (ev_create_process_object new_proc);
      mret (result syscall_result_code.ok (create_process_object K new_proc))
    end
  | Some syscall_numbers.wait_for_process =>
    match objects K !! arg0 with
    | None => mret (result syscall_result_code.not_found 0)
    | Some process_object =>
      _ ← emit (ev_object_call arg0 syscall_numbers.wait_for_process []);
      mret (operation_result_to_syscall_result (obj_wait_for_status_change process_object))
    end
  | Some syscall_numbers.start_thread =>
    _ ← emit (ev_create_thread arg0 arg1);
    new_thread ← defined (create_thread K arg0 arg1);
    _ ← emit (ev_thread_start new_thread);
    _ ← emit (ev_create_thread_object new_thread);
    mret (result syscall_result_code.ok (create_thread_object K new_thread))
  | Some syscall_numbers.stop_current_thread =>
    _ ← emit ev_thread_stop;
    _ ← emit (ev_int 255);
    mret (result syscall_result_code.ok 0)
  | Some syscall_numbers.join_thread =>
    match objects K !! arg0 with
    | None => mret (result syscall_result_code.not_found 0)
    | Some thread_object =>
      _ ← emit (ev_object_call arg0 syscall_numbers.join_thread []);
      mret (operation_result_to_syscall_result (obj_join thread_object))
    end
  | Some syscall_numbers.sleep =>
    _ ← emit (ev_sleep_ms arg0);
    mret (result syscall_result_code.ok 0)
  | Some syscall_numbers.poweroff =>
    _ ← emit (ev_outw 1540 8192);
    mret (result syscall_result_code.ok 0)
  | Some syscall_numbers.readdir =>
    do_readdir (cstr_at arg0) arg1 arg2
  | None =>
    _ ← emit (ev_dprintf "ERROR: unsupported syscall: %lx" [index]);
    mret (result syscall_result_code.not_supported 0)
  end.

End Kernel.

(** ** The user program [ls] (user/ls/src/main.cpp) *)

(** What [main] does besides returning: the call [ls(long_flag, path)],
    which reads the directory with the [readdir] system call and prints the
    listing, and the writes to the console. *)
Inductive user_event :=
  | call_ls (long_flag : Z) (path : cstring)
  | console_write (text : string).

(** The loops of lines 74-76 and 85-87: bytes are copied from the command
    line into a buffer with room for [room] more bytes, until a space or the
    end of the line is met or the buffer is full. The result is the bytes
    copied and the command line from [pos] on. *)
Fixpoint copy_word (s : cstring) (room : nat) : cstring * cstring :=
  match s, room with
  | c :: s', S room' =>
    if decide (c = " "%char) then ([], s)
    else let '(w, r) := copy_word s' room' in (c :: w, r)
  | _, _ => ([], s)
  end.

(** Line 79. *)
Fixpoint skip_spaces (s : cstring) : cstring :=
  match s with
  | c :: s' => if decide (c = " "%char) then skip_spaces s' else s
  | [] => []
  end.

Definition usage : string := "usage: ls [-l] <directory>".

Definition main (cmdline : option cstring) : list user_event * Z :=
  match cmdline with
  | None => ([call_ls 0 []], 0)
  | Some cmdline =>
    if decide (length cmdline = 0%nat) then ([call_ls 0 []], 0)
    else
      let '(arg1, rest1) := copy_word cmdline (128 - 1) in
      let rest2 := skip_spaces rest1 in
      let '(arg2, _) := copy_word rest2 (128 - 1) in
      match arg2 with
      | [] =>
        if decide (arg1 = lit "-l") then ([call_ls 1 []], 0)
        else ([call_ls 0 arg1], 0)
      | _ :: _ =>
        if decide (arg1 = lit "-l") then ([call_ls 1 arg2], 0)
        else ([console_write usage], 1)
      end
  end.

(** ** The command-line grammar of the specification *)

(** The fields of a line between its spaces, empty ones included. *)
Fixpoint fields (s : cstring) : list cstring :=
  match s with
  | [] => [[]]
  | c :: s' =>
    if decide (c = " "%char) then [] :: fields s'
    else match fields s' with
         | f :: fs => (c :: f) :: fs
         | [] => [[c]]
         end
  end.

(** The space-separated tokens of a line. *)
Definition tokens (s : cstring) : list cstring :=
  filter (fun f : cstring => f <> []) (fields s).

(** What the specification has [ls] do for zero, one or two tokens: the
    listing requested and the exit status. *)
Definition ls_dispatch (toks : list cstring) : option (list user_event * Z) :=
  match toks with
  | [] => Some ([call_ls 0 []], 0)
  | [t] =>
    if decide (t = lit "-l") then Some ([call_ls 1 []], 0)
    else Some ([call_ls 0 t], 0)
  | [t1; t2] =>
    if decide (t1 = lit "-l") then Some ([call_ls 1 t2], 0)
    else Some ([console_write usage], 1)
  | _ => None
  end.

(** ** Vocabulary of the statements *)

(** The trace [t] followed by what [o] does. *)
Definition prepend {A} (t : list event) (o : outcome A) : outcome A :=
  match o with
  | Undefined => Undefined
  | Returns a t' => Returns a (t ++ t')
  end.

(** Line 126-127: the user address of record [i] of the buffer. *)
Definition dst_address_of (user_buf : Z) (i : nat) : Z :=
  wrap64 (user_buf + sizeof_dirent * Z.of_nat i).

(** The copies of the records of [cs], the first being record [i] of the
    buffer, record [j] going to the kernel address [kdst j]. *)
Fixpoint copies (kdst : nat -> Z) (i : nat) (cs : list fs_node) : list event :=
  match cs with
  | [] => []
  | c :: cs' => ev_memcpy (kdst i) (dirent_of c) :: copies kdst (S i) cs'
  end.

(** The address the specification gives for a validated destination: the
    base of the region's backing storage plus the offset of the destination
    in the region. *)
Definition kernel_address (rgn : region) (dst_address : Z) : Z :=
  rgn_storage rgn + (dst_address - rgn_base rgn).

(** The opcodes whose first argument is a handle that is looked up. *)
Definition handle_consuming : list syscall_numbers.t :=
  [ syscall_numbers.write; syscall_numbers.pwrite; syscall_numbers.read;
    syscall_numbers.pread; syscall_numbers.ioctl;
    syscall_numbers.wait_for_process; syscall_numbers.join_thread ].

(** The operation of the object subsystem that corresponds to an opcode,
    applied to the remaining arguments, with the arguments it receives. *)
Definition object_operation (op : syscall_numbers.t) (o : object) (arg1 arg2 arg3 : Z)
  : option (operation_result * list Z) :=
  match op with
  | syscall_numbers.write => Some (obj_write o arg1 arg2, [arg1; arg2])
  | syscall_numbers.pwrite => Some (obj_pwrite o arg1 arg2 arg3, [arg1; arg2; arg3])
  | syscall_numbers.read => Some (obj_read o arg1 arg2, [arg1; arg2])
  | syscall_numbers.pread => Some (obj_pread o arg1 arg2 arg3, [arg1; arg2; arg3])
  | syscall_numbers.ioctl => Some (obj_ioctl o arg1 arg2 arg3, [arg1; arg2; arg3])
  | syscall_numbers.wait_for_process => Some (obj_wait_for_status_change o, [])
  | syscall_numbers.join_thread => Some (obj_join o, [])
  | _ => None
  end.

(** ** A small system, for the concrete cases *)

Module Example.

Definition opcodes : list syscall_numbers.t :=
  [ syscall_numbers.exit; syscall_numbers.open; syscall_numbers.close;
    syscall_numbers.write; syscall_numbers.pwrite; syscall_numbers.read;
    syscall_numbers.pread; syscall_numbers.ioctl; syscall_numbers.alloc_mem;
    syscall_numbers.start_process; syscall_numbers.wait_for_process;
    syscall_numbers.start_thread; syscall_numbers.stop_current_thread;
    syscall_numbers.join_thread; syscall_numbers.sleep; syscall_numbers.poweroff;
    syscall_numbers.set_fs; syscall_numbers.set_gs; syscall_numbers.readdir ].

Definition hdr : headers :=
  {| syscall_of_index := fun index =>
       if decide (0 <= index) then opcodes !! Z.to_nat index else None;
     syscall_result_code_of := fun c =>
       if decide (c = 0) then syscall_result_code.ok
       else if decide (c = 1) then syscall_result_code.not_found
       else syscall_result_code.not_supported;
     region_flags_writable := 2;
     region_flags_readwrite := 3;
     PAGE_ALIGN_UP := fun z => wrap64 ((z + 4095) / 4096 * 4096) |}.

(** The directory of the specification's end-to-end case: [/docs] holds the
    file [a.txt] of 120 bytes, then the subdirectory [sub]. *)
Definition a_txt : fs_node := FsNode file (lit "a.txt") 120 [].
Definition sub : fs_node := FsNode directory (lit "sub") 0 [].
Definition docs : fs_node := FsNode directory (lit "docs") 0 [a_txt; sub].
Definition root : fs_node := FsNode directory [] 0 [docs].

Definition lookup (tree : list (cstring * fs_node)) (path : cstring) : option fs_node :=
  snd <$> List.find (fun e => bool_decide (fst e = path)) tree.

Definition tree : list (cstring * fs_node) :=
  [ (lit "/", root); (lit "/docs", docs); (lit "/docs/a.txt", a_txt);
    (lit "/docs/sub", sub) ].

(** One page of user memory, readable and writable, at [0x10000]. *)
Definition page : region :=
  {| rgn_base := 65536; rgn_size := 4096; rgn_flags := 3; rgn_storage := 1048576 |}.

(** An object whose operations all answer code 0 with a fixed datum. *)
Definition console : object :=
  {| obj_write := fun _ len => {| op_code := 0; op_data := len |};
     obj_pwrite := fun _ len _ => {| op_code := 0; op_data := len |};
     obj_read := fun _ len => {| op_code := 0; op_data := len |};
     obj_pread := fun _ len _ => {| op_code := 0; op_data := len |};
     obj_ioctl := fun _ _ _ => {| op_code := 2; op_data := 0 |};
     obj_wait_for_status_change := {| op_code := 0; op_data := 0 |};
     obj_join := {| op_code := 0; op_data := 0 |} |}.

Definition system (fs : list (cstring * fs_node)) (rgns : list region) : kernel :=
  {| vfs_lookup := lookup fs;
     node_open := fun _ => None;
     regions := rgns;
     alloc_region := fun _ _ => None;
     user_cstr := fun _ => lit "/docs";
     objects := {[ 3 := console ]};
     create_file_object := fun _ => 0;
     create_process_object := fun _ => 0;
     create_thread_object := fun _ => 0;
     create_process := fun _ _ => None;
     create_thread := fun _ _ => None |}.

Definition K : kernel := system tree [page].

(** The last page of the 64-bit address space, writable. *)
Definition top_page : region :=
  {| rgn_base := 2 ^ 64 - 4096; rgn_size := 4096; rgn_flags := 3; rgn_storage := 1048576 |}.

(** A writable region that ends one byte short of the end of the address
    space. *)
Definition top_odd : region :=
  {| rgn_base := 2 ^ 64 - 4096; rgn_size := 4095; rgn_flags := 3; rgn_storage := 1048576 |}.

(** A directory holding one file of exactly 4 GiB. *)
Definition big : fs_node := FsNode file (lit "big") (2 ^ 32) [].
Definition big_tree : list (cstring * fs_node) :=
  [ (lit "/", FsNode directory [] 0 [big]) ].

End Example.

(** ** The listing procedure [ls] of the user program (main.cpp, lines 18-46) *)

#[global] Instance syscall_result_code_eq_dec : EqDecision syscall_result_code.t.
Proof. solve_decision. Defined.



(** The string a character array holds: its bytes before the first NUL. *)
Fixpoint c_string_of (buf : list ascii) : cstring :=
  match buf with
  | [] => []
  | c :: buf' => if decide (c = NUL) then [] else c :: c_string_of buf'
  end.




(** ** Vocabulary of the further properties *)

(** The records a trace copies, in order. *)
Definition records_of (tr : list event) : list dirent :=
  omap (fun e => match e with ev_memcpy _ ent => Some ent | _ => None end) tr.

(** The kernel address the checks yield for record [i] of the buffer. *)
Definition kernel_dst (hdr : headers) (K : kernel) (user_buf : Z) (i : nat) : Z :=
  default 0 (validate_dst hdr K (dst_address_of user_buf i)).

(** The events by which the dispatcher puts a new object in the handle
    table. *)
Definition creates_object (e : event) : Prop :=
  match e with
  | ev_create_file_object _ | ev_create_process_object _ | ev_create_thread_object _ => True
  | _ => False
  end.



(** The small system again, with files that can be opened: [open] yields
    the file 7, which is wrapped in the object of id 4. *)
Definition system_with_files : kernel :=
  {| vfs_lookup := Example.lookup Example.tree;
     node_open := fun _ => Some 7;
     regions := [Example.page];
     alloc_region := fun _ _ => None;
     user_cstr := fun _ => lit "/docs/a.txt";
     objects := {[ 3 := Example.console ]};
     create_file_object := fun _ => 4;
     create_process_object := fun _ => 0;
     create_thread_object := fun _ => 0;
     create_process := fun _ _ => None;
     create_thread := fun _ _ => None |}.

(** ** Name truncation *)

Lemma copy_name_eq (nm : cstring) : copy_name nm = Some (truncated_name nm).
Proof.
  unfold copy_name, truncated_name, array_memcpy, array_store, c_str, MAX_FILE_NAME_LENGTH.
  destruct (decide (64 <= length nm)%nat) as [Hlong | Hshort].
  - rewrite decide_True by (rewrite length_replicate, length_app; simpl; lia).
    change (64 - 1)%nat with 63%nat.
    rewrite take_app_le by lia. rewrite drop_replicate.
    change (replicate (64 - 63) NUL) with [NUL].
    assert (Hl : length (take 63 nm) = 63%nat) by (rewrite length_take; lia).
    cbn [mbind option_bind].
    rewrite decide_True by (rewrite length_app, Hl; simpl; lia).
    f_equal.
    replace 63%nat with (length (take 63 nm) + 0)%nat at 1 by lia.
    rewrite insert_app_r. reflexivity.
  - rewrite decide_True by (rewrite length_replicate, length_app; simpl; lia).
    rewrite take_app_le by lia. rewrite take_ge by lia.
    rewrite drop_replicate.
    replace (64 - length nm)%nat with (S (63 - length nm)) by lia.
    cbn [mbind option_bind].
    rewrite decide_True by (rewrite length_app; simpl; lia).
    f_equal.
    replace (length nm) with (length nm + 0)%nat at 1 by lia.
    rewrite insert_app_r. reflexivity.
Qed.

Lemma truncated_name_length (nm : cstring) : length (truncated_name nm) = 64%nat.
Proof.
  unfold truncated_name. destruct (decide (64 <= length nm)%nat).
  - rewrite length_app, length_take, Nat.min_l by lia. reflexivity.
  - rewrite length_app. cbn [length]. rewrite length_replicate. lia.
Qed.

Lemma make_dirent_eq (child : fs_node) : make_dirent child = Some (dirent_of child).
Proof.
  unfold make_dirent. rewrite copy_name_eq. simpl. unfold dirent_of.
  destruct (node_kind child); reflexivity.
Qed.

(** C5. For every child name, the record [do_readdir] builds has its NUL
    terminator inside the 64-byte name array: a name of 64 bytes or more is
    copied as its first 63 bytes followed by a NUL, a shorter one in full
    followed by a NUL, and no store leaves the array (the construction is
    defined and the array keeps its 64 bytes). *)
Theorem dirent_name_terminated (child : fs_node) :
  exists ent,
    make_dirent child = Some ent /\
    length (ent_name ent) = MAX_FILE_NAME_LENGTH /\
    (if decide (64 <= length (node_name child))%nat
     then take 64 (ent_name ent) = take 63 (node_name child) ++ [NUL]
     else take (S (length (node_name child))) (ent_name ent) = node_name child ++ [NUL]) /\
    ent_name ent !! (length (node_name child) `min` 63)%nat = Some NUL.
Proof.
  exists (dirent_of child). split; [apply make_dirent_eq|].
  cbn [dirent_of ent_name]. split; [apply truncated_name_length|].
  unfold truncated_name.
  destruct (decide (64 <= length (node_name child))%nat) as [Hlong | Hshort].
  - assert (Hl : length (take 63 (node_name child)) = 63%nat)
      by (rewrite length_take; lia).
    split.
    + apply take_ge. rewrite length_app, Hl. cbn [length]. lia.
    + rewrite Nat.min_r by lia.
      rewrite lookup_app_r by lia. rewrite Hl. reflexivity.
  - split.
    + rewrite (cons_middle NUL (node_name child)), app_assoc.
      apply take_app_length'. rewrite length_app. cbn. lia.
    + rewrite Nat.min_l by lia.
      rewrite lookup_app_r by lia. rewrite Nat.sub_diag. reflexivity.
Qed.

(** ** The monad *)

Lemma bind_ret {A B} (a : A) (f : A -> outcome B) : (mret a ≫= f) = f a.
Proof. unfold mret, mbind, outcome_ret, outcome_bind. by destruct (f a). Qed.

Lemma bind_emit {A} (e : event) (k : outcome A) :
  (emit e ≫= fun _ => k) = prepend [e] k.
Proof. destruct k; reflexivity. Qed.

Lemma prepend_prepend {A} (t1 t2 : list event) (o : outcome A) :
  prepend t1 (prepend t2 o) = prepend (t1 ++ t2) o.
Proof. destruct o; cbn; [reflexivity | by rewrite app_assoc]. Qed.

Lemma prepend_returns {A} (t : list event) (a : A) :
  prepend t (mret a) = Returns a t.
Proof. cbn. by rewrite app_nil_r. Qed.

(** ** The enumeration loop *)

Lemma copies_lookup (kdst : nat -> Z) (cs : list fs_node) :
  forall i j, copies kdst i cs !! j =
              (fun c => ev_memcpy (kdst (i + j)%nat) (dirent_of c)) <$> cs !! j.
Proof.
  induction cs as [| c cs IH]; intros i j; [by destruct j|].
  destruct j as [| j]; cbn.
  - by rewrite Nat.add_0_r.
  - rewrite IH. by replace (S i + j)%nat with (i + S j)%nat by lia.
Qed.

Section Readdir.

Context (hdr : headers) (K : kernel).

(** While the cap is not reached and the destinations validate, the loop
    copies one record per child and goes on with the next child. *)
Lemma readdir_loop_prefix (user_buf max_entries : Z) (kdst : nat -> Z) (post : list fs_node) :
  forall (pre : list fs_node) (i : nat),
    max_entries < 2 ^ 64 ->
    Z.of_nat (i + length pre) <= max_entries ->
    (forall j, (j < length pre)%nat ->
       validate_dst hdr K (dst_address_of user_buf (i + j)) = Some (kdst (i + j)%nat)) ->
    readdir_loop hdr K user_buf max_entries (pre ++ post) (Z.of_nat i) =
    prepend (copies kdst i pre)
      (readdir_loop hdr K user_buf max_entries post (Z.of_nat (i + length pre))).
Proof.
  induction pre as [| c pre IH]; intros i Hmax Hcap Hval.
  - cbn. rewrite Nat.add_0_r. by destruct (readdir_loop _ _ _ _ _ _).
  - cbn [app readdir_loop length copies] in *.
    rewrite decide_False by lia.
    rewrite make_dirent_eq. cbn [defined].
    rewrite bind_ret.
    assert (Hv := Hval 0%nat ltac:(lia)). rewrite Nat.add_0_r in Hv.
    unfold dst_address_of in Hv. rewrite Hv.
    rewrite bind_emit.
    replace (wrap64 (Z.of_nat i + 1)) with (Z.of_nat (S i))
      by (unfold wrap64; rewrite Z.mod_small; lia).
    rewrite IH; [| lia | lia |].
    + rewrite prepend_prepend. by replace (S i + length pre)%nat with (i + S (length pre))%nat by lia.
    + intros j Hj. replace (S i + j)%nat with (i + S j)%nat by lia. apply Hval. lia.
Qed.

Lemma readdir_loop_prefix0 (user_buf max_entries : Z) (kdst : nat -> Z) (pre post : list fs_node) :
  max_entries < 2 ^ 64 ->
  Z.of_nat (length pre) <= max_entries ->
  (forall j, (j < length pre)%nat ->
     validate_dst hdr K (dst_address_of user_buf j) = Some (kdst j)) ->
  readdir_loop hdr K user_buf max_entries (pre ++ post) 0 =
  prepend (copies kdst 0 pre)
    (readdir_loop hdr K user_buf max_entries post (Z.of_nat (length pre))).
Proof.
  intros Hmax Hcap Hval.
  apply (readdir_loop_prefix user_buf max_entries kdst post pre 0%nat); auto.
Qed.

Lemma readdir_node_directory (target : cstring) (dir : fs_node) (user_buf max_entries : Z) :
  vfs_lookup K target = Some dir ->
  node_kind dir = directory ->
  readdir_node hdr K target user_buf max_entries =
  prepend [ev_lookup target; ev_ensure_loaded]
    (readdir_loop hdr K user_buf max_entries (node_children dir) 0).
Proof.
  intros Hlook Hkind. unfold readdir_node.
  rewrite bind_emit, Hlook. rewrite decide_False by (rewrite Hkind; auto).
  rewrite bind_emit, prepend_prepend. reflexivity.
Qed.

Lemma readdir_loop_capped (user_buf max_entries : Z) (cs : list fs_node) (counter : Z) :
  max_entries <= counter ->
  readdir_loop hdr K user_buf max_entries cs counter =
  mret (result syscall_result_code.ok counter).
Proof. intros Hle. destruct cs; cbn; [done | by rewrite decide_True]. Qed.

(** C2, as amended. For every directory with N children and every
    [max_entries >= N], all destinations validating, [do_readdir] returns
    [ok] with data N, and the i-th record copied has the i-th child's name
    (truncated to 63 bytes and NUL-terminated), type ['d'] for a directory
    and ['f'] otherwise, and size 0 for a directory and, for a file, the
    child's byte size reduced modulo 2^32 by the cast to [unsigned int]. *)
Theorem readdir_all_children
    (rest : cstring) (dir : fs_node) (user_buf max_entries : Z) (kdst : nat -> Z) :
  vfs_lookup K ("/"%char :: rest) = Some dir ->
  node_kind dir = directory ->
  Z.of_nat (length (node_children dir)) <= max_entries < 2 ^ 64 ->
  (forall i, (i < length (node_children dir))%nat ->
     validate_dst hdr K (dst_address_of user_buf i) = Some (kdst i)) ->
  exists trace,
    do_readdir hdr K (Some ("/"%char :: rest)) user_buf max_entries =
      Returns (result syscall_result_code.ok (Z.of_nat (length (node_children dir)))) trace /\
    trace = ev_lookup ("/"%char :: rest) :: ev_ensure_loaded :: copies kdst 0 (node_children dir) /\
    forall i child, node_children dir !! i = Some child ->
      exists ent,
        trace !! (2 + i)%nat = Some (ev_memcpy (kdst i) ent) /\
        ent_name ent = truncated_name (node_name child) /\
        ent_type ent = (if decide (node_kind child = directory) then "d"%char else "f"%char) /\
        ent_size ent = (if decide (node_kind child = file)
                        then node_size child mod 2 ^ 32 else 0).
Proof.
  intros Hlook Hkind [Hn Hmax] Hval. eexists. split; [| split; [reflexivity |]].
  - cbn [do_readdir]. rewrite decide_True by reflexivity.
    rewrite (readdir_node_directory _ _ _ _ Hlook Hkind).
    rewrite <- (app_nil_r (node_children dir)) at 1.
    rewrite (readdir_loop_prefix0 user_buf max_entries kdst (node_children dir) []);
      [| lia | lia | intros j Hj; by apply Hval].
    cbn [readdir_loop]. rewrite prepend_prepend, prepend_returns. reflexivity.
  - intros i child Hi. exists (dirent_of child).
    cbn [lookup list_lookup Nat.add]. change (copies kdst 0 (node_children dir) !! i = Some (ev_memcpy (kdst i) (dirent_of child)) /\ ent_name (dirent_of child) = truncated_name (node_name child) /\ ent_type (dirent_of child) = (if decide (node_kind child = directory) then "d"%char else "f"%char) /\ ent_size (dirent_of child) = (if decide (node_kind child = file) then node_size child mod 2 ^ 32 else 0)).
    rewrite copies_lookup, Hi. cbn.
    destruct (node_kind child); cbn; auto.
Qed.

(** C3. For every directory with N children and every [max_entries = k < N],
    the first k destinations validating, [do_readdir] returns [ok] with data
    k and copies exactly the records of the first k children, in order, and
    nothing after them; and with [max_entries = 0] it returns [ok] with data
    0 having looked up and loaded the directory only, whatever the children
    are. *)
Theorem readdir_stops_at_cap
    (rest : cstring) (dir : fs_node) (user_buf : Z) (kdst : nat -> Z) :
  vfs_lookup K ("/"%char :: rest) = Some dir ->
  node_kind dir = directory ->
  (forall k : nat,
     (k < length (node_children dir))%nat ->
     Z.of_nat k < 2 ^ 64 ->
     (forall i, (i < k)%nat ->
        validate_dst hdr K (dst_address_of user_buf i) = Some (kdst i)) ->
     do_readdir hdr K (Some ("/"%char :: rest)) user_buf (Z.of_nat k) =
       Returns (result syscall_result_code.ok (Z.of_nat k))
         (ev_lookup ("/"%char :: rest) :: ev_ensure_loaded
          :: copies kdst 0 (take k (node_children dir)))) /\
  do_readdir hdr K (Some ("/"%char :: rest)) user_buf 0 =
    Returns (result syscall_result_code.ok 0) [ev_lookup ("/"%char :: rest); ev_ensure_loaded].
Proof.
  intros Hlook Hkind.
  assert (Hdo : forall m, do_readdir hdr K (Some ("/"%char :: rest)) user_buf m =
      prepend [ev_lookup ("/"%char :: rest); ev_ensure_loaded]
        (readdir_loop hdr K user_buf m (node_children dir) 0)).
  { intros m. cbn [do_readdir]. rewrite decide_True by reflexivity.
    by apply readdir_node_directory. }
  split.
  - intros k Hk Hmax Hval. rewrite Hdo.
    rewrite <- (take_drop k (node_children dir)) at 1.
    assert (Hlen : length (take k (node_children dir)) = k) by (rewrite length_take; lia).
    rewrite (readdir_loop_prefix0 user_buf (Z.of_nat k) kdst);
      [| lia | lia | intros j Hj; apply Hval; lia].
    rewrite readdir_loop_capped by lia.
    rewrite prepend_prepend, prepend_returns. rewrite Hlen. reflexivity.
  - rewrite Hdo, readdir_loop_capped by lia. reflexivity.
Qed.

(** C6. When the destinations of entries 0 to k-1 validate and that of
    entry k does not (entry k existing and lying under the cap),
    [do_readdir] returns [not_supported] with data 0 at once: the trace
    holds the copies of the records 0 to k-1, which stay in the caller's
    buffer, and nothing after them. *)
Theorem readdir_partial_on_failure
    (rest : cstring) (dir : fs_node) (user_buf max_entries : Z) (kdst : nat -> Z) (k : nat) :
  vfs_lookup K ("/"%char :: rest) = Some dir ->
  node_kind dir = directory ->
  (k < length (node_children dir))%nat ->
  Z.of_nat k < max_entries < 2 ^ 64 ->
  (forall i, (i < k)%nat ->
     validate_dst hdr K (dst_address_of user_buf i) = Some (kdst i)) ->
  validate_dst hdr K (dst_address_of user_buf k) = None ->
  do_readdir hdr K (Some ("/"%char :: rest)) user_buf max_entries =
    Returns (result syscall_result_code.not_supported 0)
      (ev_lookup ("/"%char :: rest) :: ev_ensure_loaded
       :: copies kdst 0 (take k (node_children dir))).
Proof.
  intros Hlook Hkind Hk [Hcap Hmax] Hval Hbad.
  cbn [do_readdir]. rewrite decide_True by reflexivity.
  rewrite (readdir_node_directory _ _ _ _ Hlook Hkind).
  rewrite <- (take_drop k (node_children dir)) at 1.
  assert (Hlen : length (take k (node_children dir)) = k) by (rewrite length_take; lia).
  rewrite (readdir_loop_prefix0 user_buf max_entries kdst);
    [| lia | lia | intros j Hj; apply Hval; lia].
  rewrite Hlen.
  destruct (drop k (node_children dir)) as [| child post] eqn:Hdrop.
  { apply (f_equal length) in Hdrop. rewrite length_drop in Hdrop. cbn in Hdrop. lia. }
  cbn [readdir_loop]. rewrite decide_False by lia.
  rewrite make_dirent_eq. cbn [defined]. rewrite bind_ret.
  unfold dst_address_of in Hbad. rewrite Hbad.
  rewrite prepend_prepend, prepend_returns. reflexivity.
Qed.

(** C4. An empty path is resolved as ["/"]; a path that begins with a byte
    other than ['/'] returns [not_supported] with no lookup in the trace,
    whatever the filesystem holds; a path whose lookup yields no node
    returns [not_found]; a node that is not a directory returns
    [not_supported]. *)
Theorem do_readdir_path_handling (user_buf max_entries : Z) :
  do_readdir hdr K (Some []) user_buf max_entries =
    do_readdir hdr K (Some (lit "/")) user_buf max_entries /\
  (forall c rest, c <> "/"%char ->
     do_readdir hdr K (Some (c :: rest)) user_buf max_entries =
       Returns (result syscall_result_code.not_supported 0) []) /\
  (forall rest, vfs_lookup K ("/"%char :: rest) = None ->
     do_readdir hdr K (Some ("/"%char :: rest)) user_buf max_entries =
       Returns (result syscall_result_code.not_found 0) [ev_lookup ("/"%char :: rest)]) /\
  (forall rest node,
     vfs_lookup K ("/"%char :: rest) = Some node ->
     node_kind node <> directory ->
     do_readdir hdr K (Some ("/"%char :: rest)) user_buf max_entries =
       Returns (result syscall_result_code.not_supported 0) [ev_lookup ("/"%char :: rest)]).
Proof.
  split; [| split; [| split]].
  - cbn [do_readdir lit list_ascii_of_string]. by rewrite decide_True.
  - intros c rest Hc. cbn [do_readdir]. by rewrite decide_False.
  - intros rest Hlook. cbn [do_readdir]. rewrite decide_True by reflexivity.
    unfold readdir_node. by rewrite bind_emit, Hlook.
  - intros rest node Hlook Hkind. cbn [do_readdir]. rewrite decide_True by reflexivity.
    unfold readdir_node. rewrite bind_emit, Hlook. by rewrite decide_True.
Qed.

(** C10. A null path is treated as an empty one: for every buffer and
    [max_entries], [do_readdir] with a null path does what it does with the
    path [""], namely enumerate the node looked up under ["/"]; through the
    dispatcher, a [readdir] call whose path argument is 0 is such a call. *)
Theorem do_readdir_null_path (user_buf max_entries : Z) :
  do_readdir hdr K None user_buf max_entries =
    do_readdir hdr K (Some []) user_buf max_entries /\
  do_readdir hdr K None user_buf max_entries =
    readdir_node hdr K (lit "/") user_buf max_entries /\
  cstr_at K 0 = None.
Proof. repeat split. Qed.

(** ** The checks on a destination *)

Lemma wrap64_small (z : Z) : 0 <= z < 2 ^ 64 -> wrap64 z = z.
Proof. intros Hz. unfold wrap64. by rewrite Z.mod_small. Qed.

Lemma get_region_from_address_Some (a : Z) (rgn : region) :
  get_region_from_address K a = Some rgn -> In rgn (regions K) /\ region_contains rgn a.
Proof.
  unfold get_region_from_address. intros Hfind.
  apply List.find_some in Hfind as [Hin Hc]. split; [done |].
  by apply bool_decide_eq_true in Hc.
Qed.

Lemma get_region_from_address_None (a : Z) :
  get_region_from_address K a = None <->
  forall rgn, In rgn (regions K) -> ~ region_contains rgn a.
Proof.
  unfold get_region_from_address. split.
  - intros Hfind rgn Hin Hc.
    pose proof (List.find_none _ _ Hfind rgn Hin) as Hf. cbn in Hf.
    by apply bool_decide_eq_false in Hf.
  - intros Hnone. destruct (List.find _ _) as [rgn |] eqn:Hfind; [| done].
    apply List.find_some in Hfind as [Hin Hc].
    apply bool_decide_eq_true in Hc. by destruct (Hnone rgn Hin).
Qed.

(** X15. Where no sum wraps (the destination record ends below 2^64, and so
    does every region), the checks are those of the specification in exact
    arithmetic: refusal exactly when no region contains the address, or the
    record runs past the end of the region found, or that region is not
    writable; otherwise the copy goes to the region's storage base plus the
    offset of the address in the region. *)
Lemma validate_dst_exact (dst_address : Z) :
  0 <= dst_address ->
  dst_address + sizeof_dirent < 2 ^ 64 ->
  (forall rgn, In rgn (regions K) ->
     0 <= rgn_base rgn /\ 0 <= rgn_size rgn /\ rgn_base rgn + rgn_size rgn < 2 ^ 64) ->
  match validate_dst hdr K dst_address with
  | None =>
    (forall rgn, In rgn (regions K) -> ~ region_contains rgn dst_address) \/
    exists rgn, get_region_from_address K dst_address = Some rgn /\
      (dst_address + sizeof_dirent > rgn_base rgn + rgn_size rgn \/
       Z.land (rgn_flags rgn) (region_flags_writable hdr) = 0)
  | Some kdst =>
    exists rgn, get_region_from_address K dst_address = Some rgn /\
      region_contains rgn dst_address /\
      dst_address + sizeof_dirent <= rgn_base rgn + rgn_size rgn /\
      Z.land (rgn_flags rgn) (region_flags_writable hdr) <> 0 /\
      kdst = wrap64 (kernel_address rgn dst_address)
  end.
Proof.
  intros Hdst Hend Hrgns. unfold validate_dst.
  destruct (get_region_from_address K dst_address) as [rgn |] eqn:Hfind.
  - destruct (get_region_from_address_Some _ _ Hfind) as [Hin Hc].
    destruct (Hrgns rgn Hin) as (Hb & Hs & He).
    unfold sizeof_dirent in *.
    rewrite !wrap64_small by (rewrite <- ?Z.add_assoc; cbn; lia).
    destruct (decide (_ < _)) as [Hover | Hfits].
    { right. exists rgn. split; [done | left; lia]. }
    destruct (decide (_ = 0)) as [Hro | Hrw].
    { right. exists rgn. split; [done | by right]. }
    exists rgn. repeat split; try done; try apply Hc; try lia.
    unfold kernel_address, wrap64, region_contains in *.
    rewrite (Z.mod_small (dst_address - rgn_base rgn)) by lia. reflexivity.
  - left. by apply get_region_from_address_None.
Qed.

End Readdir.

(** ** The dispatcher *)

Section Dispatcher.

Context (hdr : headers) (K : kernel).

(** C7. For every opcode value outside the enumerated set and all argument
    values, [handle_syscall] is defined and returns [not_supported] with
    data 0, its only effect being the diagnostic print of the opcode. *)
Theorem unknown_opcode_not_supported (index arg0 arg1 arg2 arg3 : Z) :
  syscall_of_index hdr index = None ->
  handle_syscall hdr K index arg0 arg1 arg2 arg3 =
    Returns (result syscall_result_code.not_supported 0)
      [ev_dprintf "ERROR: unsupported syscall: %lx" [index]].
Proof. intros Hnone. unfold handle_syscall. rewrite Hnone. reflexivity. Qed.

(** C8. For each of write, pwrite, read, pread, ioctl, wait_for_process and
    join_thread: when the calling process has no object under handle
    [arg0], [handle_syscall] returns [not_found] with data 0; otherwise it
    returns the translation of the result of the object's corresponding
    operation. For close it returns [ok] with data 0 once the handle is
    released, whether or not the handle named an object. *)
Theorem handle_lookup_then_delegate
    (index arg0 arg1 arg2 arg3 : Z) (op : syscall_numbers.t) :
  syscall_of_index hdr index = Some op ->
  (In op handle_consuming ->
     (objects K !! arg0 = None ->
        handle_syscall hdr K index arg0 arg1 arg2 arg3 =
          Returns (result syscall_result_code.not_found 0) []) /\
     (forall o, objects K !! arg0 = Some o ->
        exists r args,
          object_operation op o arg1 arg2 arg3 = Some (r, args) /\
          handle_syscall hdr K index arg0 arg1 arg2 arg3 =
            Returns (operation_result_to_syscall_result hdr r)
              [ev_object_call arg0 op args])) /\
  (op = syscall_numbers.close ->
     handle_syscall hdr K index arg0 arg1 arg2 arg3 =
       Returns (result syscall_result_code.ok 0) [ev_free_object arg0]).
Proof.
  intros Hop. unfold handle_syscall. rewrite Hop. split.
  - intros Hin. split.
    + intros Hnone. rewrite Hnone.
      cbn in Hin. by repeat (destruct Hin as [<- | Hin]; [reflexivity |]).
    + intros o Hsome. rewrite Hsome.
      cbn in Hin.
      repeat (destruct Hin as [<- | Hin]; [do 2 eexists; split; reflexivity |]).
      done.
  - intros ->. reflexivity.
Qed.

End Dispatcher.

(** ** Concrete cases *)

(** C1. The checks of lines 138-147 are made in 64-bit arithmetic that wraps,
    and differ from the exact ones at the top of the address space.
    (a) With the writable region [top_odd] = [2^64-4096, 2^64-1) and the
    buffer at 2^64-16, the record would end 57 bytes past the region, yet
    the destination is accepted and the record is copied at offset 4080 of
    the region's 4095 bytes of storage. (b) With the writable last page
    [top_page] and the buffer at its base, the record lies inside the
    region, yet [not_supported] is returned. *)
Theorem validate_dst_wraps :
  (region_contains Example.top_odd (2 ^ 64 - 16) /\
   2 ^ 64 - 16 + sizeof_dirent > rgn_base Example.top_odd + rgn_size Example.top_odd /\
   do_readdir Example.hdr (Example.system Example.tree [Example.top_odd])
     (Some (lit "/docs")) (2 ^ 64 - 16) 1 =
     Returns (result syscall_result_code.ok 1)
       [ev_lookup (lit "/docs"); ev_ensure_loaded;
        ev_memcpy (rgn_storage Example.top_odd + 4080) (dirent_of Example.a_txt)]) /\
  (region_contains Example.top_page (2 ^ 64 - 4096) /\
   2 ^ 64 - 4096 + sizeof_dirent <= rgn_base Example.top_page + rgn_size Example.top_page /\
   Z.land (rgn_flags Example.top_page) (region_flags_writable Example.hdr) <> 0 /\
   do_readdir Example.hdr (Example.system Example.tree [Example.top_page])
     (Some (lit "/docs")) (2 ^ 64 - 4096) 1 =
     Returns (result syscall_result_code.not_supported 0)
       [ev_lookup (lit "/docs"); ev_ensure_loaded]).
Proof.
  split; [split; [| split] | split; [| split; [| split]]].
  - compute_done.
  - compute_done.
  - vm_compute. reflexivity.
  - compute_done.
  - compute_done.
  - compute_done.
  - vm_compute. reflexivity.
Qed.

(** The amended C2 at the end-to-end case of the specification:
    [readdir("/docs", buf, 256)] returns [ok] with data 2. *)
Lemma readdir_all_children_witness :
  exists trace,
    do_readdir Example.hdr Example.K (Some (lit "/docs")) 65536 256 =
      Returns (result syscall_result_code.ok 2) trace /\
    trace = [ev_lookup (lit "/docs"); ev_ensure_loaded;
             ev_memcpy 1048576 (dirent_of Example.a_txt);
             ev_memcpy 1048648 (dirent_of Example.sub)].
Proof.
  destruct (readdir_all_children Example.hdr Example.K (lit "docs") Example.docs
              65536 256 (fun i => 1048576 + 72 * Z.of_nat i))
    as (trace & Hrun & Htrace & _).
  - reflexivity.
  - reflexivity.
  - cbn. lia.
  - intros i Hi. destruct i as [| [| i]]; [vm_compute; reflexivity .. |].
    cbn in Hi. lia.
  - exists trace. split; [exact Hrun | exact Htrace].
Defined.

(** C2 as stated fails for a file of 4 GiB: the record's size is 0, not
    the child's byte size. *)
Lemma readdir_size_4GiB :
  exists kdst ent,
    do_readdir Example.hdr (Example.system Example.big_tree [Example.page])
      (Some (lit "/")) 65536 1 =
      Returns (result syscall_result_code.ok 1)
        [ev_lookup (lit "/"); ev_ensure_loaded; ev_memcpy kdst ent] /\
    node_kind Example.big = file /\
    ent_size ent <> node_size Example.big.
Proof.
  exists 1048576, (dirent_of Example.big). split; [vm_compute; reflexivity |].
  split; [reflexivity | vm_compute; discriminate].
Qed.

Lemma readdir_stops_at_cap_witness :
  do_readdir Example.hdr Example.K (Some (lit "/docs")) 65536 1 =
    Returns (result syscall_result_code.ok 1)
      [ev_lookup (lit "/docs"); ev_ensure_loaded;
       ev_memcpy 1048576 (dirent_of Example.a_txt)] /\
  do_readdir Example.hdr Example.K (Some (lit "/docs")) 65536 0 =
    Returns (result syscall_result_code.ok 0) [ev_lookup (lit "/docs"); ev_ensure_loaded].
Proof.
  destruct (readdir_stops_at_cap Example.hdr Example.K (lit "docs") Example.docs
              65536 (fun i => 1048576 + 72 * Z.of_nat i) eq_refl eq_refl)
    as [Hcap Hzero].
  split; [| exact Hzero].
  apply (Hcap 1%nat).
  - cbn. lia.
  - cbn. lia.
  - intros i Hi. destruct i as [| i]; [vm_compute; reflexivity | lia].
Defined.

(** C6 where the second record would straddle the end of the page: the
    first record is in the buffer and the call fails. *)
Lemma readdir_partial_on_failure_witness :
  do_readdir Example.hdr Example.K (Some (lit "/docs")) 69552 256 =
    Returns (result syscall_result_code.not_supported 0)
      [ev_lookup (lit "/docs"); ev_ensure_loaded;
       ev_memcpy 1052592 (dirent_of Example.a_txt)].
Proof.
  apply (readdir_partial_on_failure Example.hdr Example.K (lit "docs") Example.docs
           69552 256 (fun i => 1052592 + 72 * Z.of_nat i) 1%nat).
  - reflexivity.
  - reflexivity.
  - cbn. lia.
  - lia.
  - intros i Hi. destruct i as [| i]; [vm_compute; reflexivity | lia].
  - vm_compute. reflexivity.
Defined.

Lemma unknown_opcode_not_supported_witness :
  handle_syscall Example.hdr Example.K 99 1 2 3 4 =
    Returns (result syscall_result_code.not_supported 0)
      [ev_dprintf "ERROR: unsupported syscall: %lx" [99]] /\
  handle_syscall Example.hdr Example.K (-1) 0 0 0 0 =
    Returns (result syscall_result_code.not_supported 0)
      [ev_dprintf "ERROR: unsupported syscall: %lx" [-1]].
Proof.
  split.
  - apply (unknown_opcode_not_supported Example.hdr Example.K 99 1 2 3 4). reflexivity.
  - apply (unknown_opcode_not_supported Example.hdr Example.K (-1) 0 0 0 0). reflexivity.
Defined.

Lemma handle_lookup_then_delegate_witness :
  handle_syscall Example.hdr Example.K 3 7 0 16 0 =
    Returns (result syscall_result_code.not_found 0) [] /\
  handle_syscall Example.hdr Example.K 3 3 0 16 0 =
    Returns (result syscall_result_code.ok 16)
      [ev_object_call 3 syscall_numbers.write [0; 16]] /\
  handle_syscall Example.hdr Example.K 2 7 0 0 0 =
    Returns (result syscall_result_code.ok 0) [ev_free_object 7].
Proof.
  split; [| split].
  - apply (handle_lookup_then_delegate Example.hdr Example.K 3 7 0 16 0
             syscall_numbers.write eq_refl).
    + cbn. auto.
    + reflexivity.
  - destruct (handle_lookup_then_delegate Example.hdr Example.K 3 3 0 16 0
                syscall_numbers.write eq_refl) as [Hobj _].
    destruct Hobj as [_ Hsome]; [cbn; auto |].
    destruct (Hsome Example.console eq_refl) as (r & args & Hop & Hrun).
    injection Hop as <- <-. exact Hrun.
  - apply (handle_lookup_then_delegate Example.hdr Example.K 2 7 0 0 0
             syscall_numbers.close eq_refl). reflexivity.
Defined.

(** ** The command line of [ls] *)

Section Ls.

Implicit Types (s w rest : cstring).

Lemma copy_word_word w rest :
  forall room : nat,
    Forall (fun c => c <> " "%char) w ->
    (length w <= room)%nat ->
    rest = [] \/ (exists r, rest = " "%char :: r) ->
    copy_word (w ++ rest) room = (w, rest).
Proof.
  induction w as [| c w IH]; intros room Hw Hlen Hrest.
  - destruct Hrest as [-> | [r ->]]; [by destruct room |].
    by destruct room.
  - inversion Hw as [| ? ? Hc Hw']; subst.
    destruct room as [| room]; [cbn in Hlen; lia |].
    cbn. rewrite decide_False by done.
    rewrite IH; [done | done | cbn in Hlen; lia | done].
Qed.

(** Every line is a word without spaces followed by nothing or by a space
    and more. *)
Lemma split_word s :
  exists w rest,
    s = w ++ rest /\ Forall (fun c => c <> " "%char) w /\
    (rest = [] \/ exists r, rest = " "%char :: r).
Proof.
  induction s as [| c s (w & rest & -> & Hw & Hrest)].
  - exists [], []. auto.
  - destruct (decide (c = " "%char)) as [-> | Hc].
    + exists [], (" "%char :: w ++ rest). eauto.
    + exists (c :: w), rest. auto.
Qed.

Lemma fields_word w rest :
  Forall (fun c => c <> " "%char) w ->
  rest = [] \/ (exists r, rest = " "%char :: r) ->
  exists fs, fields (w ++ rest) = w :: fs /\
             tokens rest = filter (fun f : cstring => f <> []) fs.
Proof.
  induction w as [| c w IH]; intros Hw Hrest.
  - destruct Hrest as [-> | [r ->]].
    + exists []. split; reflexivity.
    + exists (fields r). split; [done |].
      unfold tokens. cbn [fields]. rewrite decide_True by done.
      rewrite filter_cons_False; [done | intros Hne; by apply Hne].
  - inversion Hw as [| ? ? Hc Hw']; subst.
    destruct (IH Hw' Hrest) as (fs & Hfs & Htok).
    exists fs. cbn. rewrite decide_False by done. by rewrite Hfs.
Qed.

Lemma tokens_word w rest :
  Forall (fun c => c <> " "%char) w ->
  rest = [] \/ (exists r, rest = " "%char :: r) ->
  tokens (w ++ rest) = (if decide (w = []) then [] else [w]) ++ tokens rest.
Proof.
  intros Hw Hrest. destruct (fields_word w rest Hw Hrest) as (fs & Hfs & Htok).
  unfold tokens at 1. rewrite Hfs, Htok.
  destruct (decide (w = [])) as [-> | Hne].
  - rewrite filter_cons_False; [done | intros Hne; by apply Hne].
  - by rewrite filter_cons_True.
Qed.

Lemma tokens_skip_spaces s : tokens (skip_spaces s) = tokens s.
Proof.
  induction s as [| c s IH]; [done |]. cbn [skip_spaces].
  destruct (decide (c = " "%char)) as [-> | Hc]; [| done].
  rewrite IH. unfold tokens. cbn [fields]. rewrite decide_True by done.
  rewrite filter_cons_False; [done | intros Hne; by apply Hne].
Qed.

Lemma skip_spaces_head s : forall r, skip_spaces s <> " "%char :: r.
Proof.
  induction s as [| c s IH]; intros r; [done |]. cbn.
  destruct (decide (c = " "%char)) as [-> | Hc]; [apply IH | congruence].
Qed.

(** After the spaces are skipped, a line with no word in front is empty. *)
Lemma skipped_no_word s rest :
  skip_spaces s = [] ++ rest ->
  rest = [] \/ (exists r, rest = " "%char :: r) ->
  skip_spaces s = [].
Proof.
  cbn. intros Heq [-> | [r ->]]; [done |]. by destruct (skip_spaces_head s r).
Qed.

(** C9, as amended. For every command line of at most two space-separated
    tokens, each at most 127 bytes long, with no space before the first
    token: no token lists the root in short form; the token [-l] alone
    lists the root in long form; another single token is listed as a path
    in short form; [-l] and a path lists the path in long form; two tokens
    of which the first is not [-l] print the usage message and exit with
    status 1; all the other forms exit with status 0. *)
Theorem ls_command_line (cmdline : cstring) :
  tokens cmdline = [] \/ head cmdline <> Some " "%char ->
  Forall (fun t : cstring => (length t <= 127)%nat) (tokens cmdline) ->
  (length (tokens cmdline) <= 2)%nat ->
  ls_dispatch (tokens cmdline) = Some (main (Some cmdline)).
Proof.
  intros Hlead Hshort Hcount. unfold main.
  destruct (decide (length cmdline = 0%nat)) as [Hempty | Hnonempty].
  { destruct cmdline; [reflexivity | done]. }
  change (128 - 1)%nat with 127%nat.
  destruct (split_word cmdline) as (w1 & rest1 & -> & Hw1 & Hrest1).
  destruct (split_word (skip_spaces rest1)) as (w2 & rest3 & Heq2 & Hw2 & Hrest3).
  assert (Htok : tokens (w1 ++ rest1) =
                 (if decide (w1 = []) then [] else [w1]) ++
                 (if decide (w2 = []) then [] else [w2]) ++ tokens rest3).
  { rewrite (tokens_word w1 rest1 Hw1 Hrest1), <- (tokens_skip_spaces rest1), Heq2.
    by rewrite (tokens_word w2 rest3 Hw2 Hrest3). }
  assert (Hw2nil : w2 = [] -> skip_spaces rest1 = [] /\ tokens rest3 = []).
  { intros ->. pose proof (skipped_no_word _ _ Heq2 Hrest3) as Hs.
    rewrite Hs in Heq2. cbn in Heq2. by subst rest3. }
  rewrite Htok in Hshort, Hcount, Hlead |- *. clear Htok.
  destruct (decide (w1 = [])) as [-> | Hne1].
  - (* the line begins with a space: it has no token *)
    cbn [app] in *.
    destruct Hrest1 as [-> | [r ->]]; [done |].
    destruct Hlead as [Hnone | Hhead]; [| by destruct Hhead].
    destruct (decide (w2 = [])) as [Hnil | Hne2]; [| discriminate Hnone].
    destruct (Hw2nil Hnil) as [Hs Ht]. rewrite Ht.
    change (copy_word (" "%char :: r) 127) with (@nil ascii, " "%char :: r).
    cbv beta iota. rewrite Hs. reflexivity.
  - rewrite copy_word_word; [| done | | done].
    2:{ by apply Forall_cons_1 in Hshort as [? _]. }
    cbv beta iota. cbn [app] in *.
    destruct (decide (w2 = [])) as [Hnil | Hne2].
    + destruct (Hw2nil Hnil) as [Hs Ht]. rewrite Hs, Ht. cbn.
      by destruct (decide (w1 = _)).
    + rewrite Heq2. rewrite copy_word_word; [| done | | done].
      2:{ apply Forall_cons_1 in Hshort as [_ Hshort].
          by apply Forall_cons_1 in Hshort as [? _]. }
      cbn [app length] in Hcount.
      destruct (tokens rest3); [| cbn in Hcount; lia].
      destruct w2 as [| c2 w2]; [done |]. cbn.
      by destruct (decide (w1 = _)).
Qed.

End Ls.

(** With no command line at all the root is listed in short form. *)
Lemma main_null : main None = ([call_ls 0 []], 0).
Proof. reflexivity. Qed.

(** C9 as stated fails for a single token of 128 bytes: the first 127 are
    taken as the first argument, the last one as the second, and the usage
    message is printed. *)
Lemma ls_long_token :
  tokens (replicate 128 "a"%char) = [replicate 128 "a"%char] /\
  ls_dispatch (tokens (replicate 128 "a"%char)) =
    Some ([call_ls 0 (replicate 128 "a"%char)], 0) /\
  main (Some (replicate 128 "a"%char)) = ([console_write usage], 1).
Proof. repeat split; vm_compute; reflexivity. Qed.

(** It fails also for a path after a space: the first argument is empty and
    the path is taken as the second. *)
Lemma ls_leading_space :
  tokens (lit " /docs") = [lit "/docs"] /\
  main (Some (lit " /docs")) = ([console_write usage], 1).
Proof. split; reflexivity. Qed.

Lemma ls_command_line_witness :
  main (Some (lit "-l /docs")) = ([call_ls 1 (lit "/docs")], 0) /\
  main (Some (lit "/docs")) = ([call_ls 0 (lit "/docs")], 0) /\
  main (Some (lit "-l")) = ([call_ls 1 []], 0) /\
  main (Some (lit "docs -l")) = ([console_write usage], 1).
Proof.
  assert (Hall : forall cmdline r,
    head cmdline <> Some " "%char ->
    bool_decide (Forall (fun t : cstring => (length t <= 127)%nat) (tokens cmdline)) = true ->
    bool_decide (length (tokens cmdline) <= 2)%nat = true ->
    ls_dispatch (tokens cmdline) = Some r -> main (Some cmdline) = r).
  { intros cmdline r Hhead Hshort Hcount Hr.
    apply bool_decide_eq_true in Hshort, Hcount.
    pose proof (ls_command_line cmdline (or_intror Hhead) Hshort Hcount) as Hmain.
    rewrite Hr in Hmain. by injection Hmain. }
  repeat split; apply Hall; solve [discriminate | reflexivity].
Defined.

Lemma do_readdir_path_handling_witness :
  do_readdir Example.hdr Example.K (Some []) 65536 256 =
    do_readdir Example.hdr Example.K (Some (lit "/")) 65536 256 /\
  do_readdir Example.hdr Example.K (Some (lit "docs")) 65536 256 =
    Returns (result syscall_result_code.not_supported 0) [] /\
  do_readdir Example.hdr Example.K (Some (lit "/nope")) 65536 256 =
    Returns (result syscall_result_code.not_found 0) [ev_lookup (lit "/nope")] /\
  do_readdir Example.hdr Example.K (Some (lit "/docs/a.txt")) 65536 256 =
    Returns (result syscall_result_code.not_supported 0) [ev_lookup (lit "/docs/a.txt")].
Proof.
  destruct (do_readdir_path_handling Example.hdr Example.K 65536 256)
    as (Hempty & Hrelative & Hmissing & Hfile).
  split; [exact Hempty | split; [| split]].
  - apply (Hrelative "d"%char (lit "ocs")). discriminate.
  - apply (Hmissing (lit "nope")). reflexivity.
  - apply (Hfile (lit "docs/a.txt") Example.a_txt); [reflexivity | discriminate].
Defined.

(** ** Every run of the enumeration *)

Section Enumeration.

Context (hdr : headers) (K : kernel).

Lemma records_of_copies (kdst : nat -> Z) (cs : list fs_node) :
  forall i, records_of (copies kdst i cs) = dirent_of <$> cs.
Proof.
  induction cs as [| c cs IH]; intros i; [done |].
  cbn. f_equal. apply IH.
Qed.

(** The loop, started with [i] records written under a cap not yet passed,
    copies the records of some [n] further children, each to its validated
    destination, and then either returns [ok] with the count (the children
    or the cap being exhausted) or meets a refused destination and returns
    [not_supported] with data 0. *)
Lemma readdir_loop_run (user_buf max_entries : Z) :
  max_entries < 2 ^ 64 ->
  forall (cs : list fs_node) (i : nat),
    Z.of_nat i <= max_entries ->
    exists n : nat,
      (n <= length cs)%nat /\
      Z.of_nat (i + n) <= max_entries /\
      (forall j, (j < n)%nat ->
         validate_dst hdr K (dst_address_of user_buf (i + j)) =
           Some (kernel_dst hdr K user_buf (i + j))) /\
      ((readdir_loop hdr K user_buf max_entries cs (Z.of_nat i) =
          Returns (result syscall_result_code.ok (Z.of_nat (i + n)))
            (copies (kernel_dst hdr K user_buf) i (take n cs)) /\
        (n = length cs \/ Z.of_nat (i + n) = max_entries)) \/
       (readdir_loop hdr K user_buf max_entries cs (Z.of_nat i) =
          Returns (result syscall_result_code.not_supported 0)
            (copies (kernel_dst hdr K user_buf) i (take n cs)) /\
        (n < length cs)%nat /\
        Z.of_nat (i + n) < max_entries /\
        validate_dst hdr K (dst_address_of user_buf (i + n)) = None)).
Proof.
  intros Hmax. induction cs as [| c cs IH]; intros i Hi.
  - exists 0%nat. rewrite Nat.add_0_r. repeat split; [done | done | lia |].
    left. split; [reflexivity | by left].
  - cbn [readdir_loop].
    destruct (decide (max_entries <= Z.of_nat i)) as [Hcap | Hunder].
    { exists 0%nat. rewrite Nat.add_0_r. repeat split; [cbn; lia | done | lia |].
      left. split; [reflexivity | right; lia]. }
    rewrite make_dirent_eq. cbn [defined]. rewrite bind_ret.
    change (wrap64 (user_buf + sizeof_dirent * Z.of_nat i))
      with (dst_address_of user_buf i).
    destruct (validate_dst hdr K (dst_address_of user_buf i)) as [kdst |] eqn:Hv.
    + replace (wrap64 (Z.of_nat i + 1)) with (Z.of_nat (S i))
        by (unfold wrap64; rewrite Z.mod_small; lia).
      destruct (IH (S i) ltac:(lia)) as (n & Hn & Hle & Hval & Hrun).
      assert (Hk : kernel_dst hdr K user_buf i = kdst)
        by (unfold kernel_dst; by rewrite Hv).
      exists (S n). replace (i + S n)%nat with (S i + n)%nat by lia.
      split; [cbn; lia |]. split; [done |]. split.
      { intros [| j] Hj.
        - by rewrite Nat.add_0_r, Hv, Hk.
        - replace (i + S j)%nat with (S i + j)%nat by lia. apply Hval. lia. }
      rewrite bind_emit. cbn [take copies]. rewrite Hk.
      destruct Hrun as [[-> Hend] | (-> & Hlt & Hlt' & Hbad)].
      * left. split; [reflexivity |]. cbn [length].
        destruct Hend as [-> | Hend]; [by left | by right].
      * right. repeat split; [cbn; lia | done | done].
    + exists 0%nat. rewrite Nat.add_0_r. repeat split; [cbn; lia | lia | lia |].
      right. repeat split; [cbn; lia | lia | done].
Qed.

(** Without any assumption on the cap: the loop is defined, its events are
    copies only, each of the record of a child to the address the checks
    gave for some 64-bit destination, and a result other than [ok] carries
    data 0. *)
Lemma readdir_loop_events (user_buf max_entries : Z) :
  forall (cs : list fs_node) (counter : Z),
    exists r tr,
      readdir_loop hdr K user_buf max_entries cs counter = Returns r tr /\
      Forall (fun e => exists kdst c dst,
                e = ev_memcpy kdst (dirent_of c) /\ In c cs /\
                0 <= dst < 2 ^ 64 /\ validate_dst hdr K dst = Some kdst) tr /\
      (code r <> syscall_result_code.ok -> data r = 0).
Proof.
  induction cs as [| c cs IH]; intros counter.
  - do 2 eexists. split; [reflexivity |]. split; [constructor | done].
  - cbn [readdir_loop].
    destruct (decide (max_entries <= counter)).
    { do 2 eexists. split; [reflexivity |]. split; [constructor | done]. }
    rewrite make_dirent_eq. cbn [defined]. rewrite bind_ret.
    destruct (validate_dst hdr K _) as [kdst |] eqn:Hv.
    + destruct (IH (wrap64 (counter + 1))) as (r & tr & -> & Htr & Hr).
      rewrite bind_emit. do 2 eexists. split; [reflexivity |].
      split; [| done]. constructor.
      * eexists _, _, _. split; [reflexivity |]. split; [by left |].
        split; [| exact Hv]. unfold wrap64. apply Z.mod_pos_bound. lia.
      * eapply Forall_impl; [exact Htr |].
        intros e (k & c' & dst & -> & Hin & Hdst & Hval).
        eexists _, _, _. split; [reflexivity |]. split; [by right | done].
    + do 2 eexists. split; [reflexivity |]. split; [constructor | done].
Qed.

(** The events of a call: lookups, the loading of the directory, and
    copies as [readdir_loop_events] describes them. *)
Lemma do_readdir_events (path : option cstring) (user_buf max_entries : Z) :
  exists r tr,
    do_readdir hdr K path user_buf max_entries = Returns r tr /\
    Forall (fun e => (exists p, e = ev_lookup p) \/ e = ev_ensure_loaded \/
              exists kdst c dst,
                e = ev_memcpy kdst (dirent_of c) /\
                0 <= dst < 2 ^ 64 /\ validate_dst hdr K dst = Some kdst) tr /\
    (code r <> syscall_result_code.ok -> data r = 0).
Proof.
  assert (Hnode : forall target, exists r tr,
    readdir_node hdr K target user_buf max_entries = Returns r tr /\
    Forall (fun e => (exists p, e = ev_lookup p) \/ e = ev_ensure_loaded \/
              exists kdst c dst,
                e = ev_memcpy kdst (dirent_of c) /\
                0 <= dst < 2 ^ 64 /\ validate_dst hdr K dst = Some kdst) tr /\
    (code r <> syscall_result_code.ok -> data r = 0)).
  { intros target. unfold readdir_node. rewrite bind_emit.
    destruct (vfs_lookup K target) as [node |].
    - destruct (decide (node_kind node <> directory)).
      + do 2 eexists. split; [reflexivity |]. split; [| done].
        repeat constructor. by eexists.
      + destruct (readdir_loop_events user_buf max_entries (node_children node) 0)
          as (r & tr & Hrun & Htr & Hr).
        rewrite bind_emit, Hrun. do 2 eexists. split; [reflexivity |].
        split; [| done]. constructor; [left; by eexists |].
        constructor; [by right; left |].
        eapply Forall_impl; [exact Htr |].
        intros e (k & c & dst & -> & _ & Hdst & Hval). right; right. by eexists _, _, _.
    - do 2 eexists. split; [reflexivity |]. split; [| done].
      repeat constructor. by eexists. }
  destruct path as [[| c p] |]; cbn [do_readdir]; [apply Hnode | | apply Hnode].
  destruct (decide (c = "/"%char)); [apply Hnode |].
  do 2 eexists. split; [reflexivity |]. split; [constructor | done].
Qed.

Lemma validate_dst_Some (dst_address kdst : Z) :
  validate_dst hdr K dst_address = Some kdst ->
  exists rgn,
    In rgn (regions K) /\ region_contains rgn dst_address /\
    ~ wrap64 (rgn_base rgn + rgn_size rgn) < wrap64 (dst_address + sizeof_dirent) /\
    Z.land (rgn_flags rgn) (region_flags_writable hdr) <> 0 /\
    kdst = wrap64 (rgn_storage rgn + wrap64 (dst_address - rgn_base rgn)).
Proof.
  unfold validate_dst. intros Hv.
  destruct (get_region_from_address K dst_address) as [rgn |] eqn:Hfind; [| done].
  destruct (get_region_from_address_Some _ _ _ Hfind) as [Hin Hc].
  destruct (decide (_ < _)); [done |].
  destruct (decide (_ = 0)); [done |].
  injection Hv as <-. by exists rgn.
Qed.

(** X1. On a directory [do_readdir] copies the records of the first [n]
    children and nothing else, record [j] going to the address the checks
    give for slot [j] of the buffer. Either every one of the first
    [min N max_entries] destinations is accepted, [n] is that minimum and
    the result is [ok] with data [n]; or [n] is the index of the first
    refused destination and the result is [not_supported] with data 0. *)
Theorem readdir_on_directory
    (rest : cstring) (dir : fs_node) (user_buf max_entries : Z) :
  vfs_lookup K ("/"%char :: rest) = Some dir ->
  node_kind dir = directory ->
  0 <= max_entries < 2 ^ 64 ->
  exists (n : nat) (r : syscall_result),
    do_readdir hdr K (Some ("/"%char :: rest)) user_buf max_entries =
      Returns r (ev_lookup ("/"%char :: rest) :: ev_ensure_loaded
                 :: copies (kernel_dst hdr K user_buf) 0 (take n (node_children dir))) /\
    (forall j, (j < n)%nat ->
       validate_dst hdr K (dst_address_of user_buf j) = Some (kernel_dst hdr K user_buf j)) /\
    ((r = result syscall_result_code.ok (Z.of_nat n) /\
      n = (length (node_children dir) `min` Z.to_nat max_entries)%nat) \/
     (r = result syscall_result_code.not_supported 0 /\
      (n < length (node_children dir) `min` Z.to_nat max_entries)%nat /\
      validate_dst hdr K (dst_address_of user_buf n) = None)).
Proof.
  intros Hlook Hkind [Hmin Hmax].
  destruct (readdir_loop_run user_buf max_entries Hmax (node_children dir) 0%nat Hmin)
    as (n & Hn & Hle & Hval & Hrun).
  change (Z.of_nat 0) with 0 in Hrun. cbn [Nat.add] in *.
  assert (Hdo : do_readdir hdr K (Some ("/"%char :: rest)) user_buf max_entries =
      prepend [ev_lookup ("/"%char :: rest); ev_ensure_loaded]
        (readdir_loop hdr K user_buf max_entries (node_children dir) 0)).
  { cbn [do_readdir]. rewrite decide_True by reflexivity.
    by apply readdir_node_directory. }
  destruct Hrun as [[Hrun Hend] | (Hrun & Hlt & Hlt' & Hbad)];
    rewrite Hrun in Hdo; exists n; eexists; (split; [exact Hdo |]); (split; [exact Hval |]).
  - left. split; [reflexivity | lia].
  - right. split; [reflexivity |]. split; [lia | done].
Qed.

(** Every call returns, and its data counts the records copied. *)
Lemma do_readdir_run (path : option cstring) (user_buf max_entries : Z) :
  0 <= max_entries < 2 ^ 64 ->
  exists r tr,
    do_readdir hdr K path user_buf max_entries = Returns r tr /\
    (code r = syscall_result_code.ok -> data r = Z.of_nat (length (records_of tr))) /\
    (code r <> syscall_result_code.ok -> data r = 0) /\
    Z.of_nat (length (records_of tr)) <= max_entries.
Proof.
  intros [Hmin Hmax].
  assert (Hnode : forall target, exists r tr,
    readdir_node hdr K target user_buf max_entries = Returns r tr /\
    (code r = syscall_result_code.ok -> data r = Z.of_nat (length (records_of tr))) /\
    (code r <> syscall_result_code.ok -> data r = 0) /\
    Z.of_nat (length (records_of tr)) <= max_entries).
  { intros target. destruct (vfs_lookup K target) as [node |] eqn:Hlook.
    - destruct (decide (node_kind node = directory)) as [Hkind | Hkind].
      + rewrite (readdir_node_directory hdr K _ _ _ _ Hlook Hkind).
        destruct (readdir_loop_run user_buf max_entries Hmax (node_children node) 0%nat Hmin)
          as (n & Hn & Hle & _ & Hrun).
        change (Z.of_nat 0) with 0 in Hrun. cbn [Nat.add] in *.
        assert (Hrec : length (records_of (ev_lookup target :: ev_ensure_loaded
                  :: copies (kernel_dst hdr K user_buf) 0 (take n (node_children node)))) = n).
        { change (records_of (ev_lookup target :: ev_ensure_loaded :: ?l))
            with (records_of l).
          rewrite records_of_copies, length_fmap, length_take. lia. }
        destruct Hrun as [[-> _] | (-> & _)]; do 2 eexists;
          (split; [reflexivity |]); cbn [prepend app]; rewrite Hrec; cbn; repeat split;
          try done; lia.
      + unfold readdir_node. rewrite bind_emit, Hlook, decide_True by done.
        do 2 eexists. split; [reflexivity |]. cbn. repeat split; try done; lia.
    - unfold readdir_node. rewrite bind_emit, Hlook.
      do 2 eexists. split; [reflexivity |]. cbn. repeat split; try done; lia. }
  destruct path as [[| c p] |]; cbn [do_readdir]; [apply Hnode | | apply Hnode].
  destruct (decide (c = "/"%char)); [apply Hnode |].
  do 2 eexists. split; [reflexivity |]. cbn. repeat split; try done; lia.
Qed.

(** X2. Whatever the path, [do_readdir] returns: with [ok] the data is the
    number of records copied, with any other code it is 0, and on every
    path the number of records copied is at most [max_entries]. *)
Theorem do_readdir_count (path : option cstring) (user_buf max_entries : Z) :
  0 <= max_entries < 2 ^ 64 ->
  exists r tr,
    do_readdir hdr K path user_buf max_entries = Returns r tr /\
    (code r = syscall_result_code.ok -> data r = Z.of_nat (length (records_of tr))) /\
    (code r <> syscall_result_code.ok -> data r = 0) /\
    Z.of_nat (length (records_of tr)) <= max_entries.
Proof. apply do_readdir_run. Qed.

(** X3. With no assumption at all: a record is copied only for a
    destination whose first byte lies in a region of the caller that has
    the writable flag, and it goes to that region's storage at the offset
    of the destination in the region. *)
Theorem copy_starts_in_writable_region
    (path : option cstring) (user_buf max_entries : Z)
    (r : syscall_result) (tr : list event) (kdst : Z) (ent : dirent) :
  do_readdir hdr K path user_buf max_entries = Returns r tr ->
  In (ev_memcpy kdst ent) tr ->
  exists dst rgn,
    In rgn (regions K) /\
    region_contains rgn dst /\
    Z.land (rgn_flags rgn) (region_flags_writable hdr) <> 0 /\
    kdst = wrap64 (rgn_storage rgn + wrap64 (dst - rgn_base rgn)).
Proof.
  intros Hrun Hin.
  destruct (do_readdir_events path user_buf max_entries) as (r' & tr' & Hrun' & Hev & _).
  rewrite Hrun in Hrun'. injection Hrun' as <- <-.
  rewrite List.Forall_forall in Hev.
  destruct (Hev _ Hin) as [[p Hp] | [Hl | (k & c & dst & Heq & _ & Hv)]]; [done | done |].
  injection Heq as -> ->.
  destruct (validate_dst_Some _ _ Hv) as (rgn & Hrgn & Hc & _ & Hw & Hk).
  by exists dst, rgn.
Qed.

(** X4. When every region of the caller, and its storage, ends below the
    top of the address space with room for one record (so that no sum of
    the checks wraps), every record copied lies wholly inside the storage
    of a writable region of the caller. *)
Theorem copy_inside_region_storage
    (path : option cstring) (user_buf max_entries : Z)
    (r : syscall_result) (tr : list event) (kdst : Z) (ent : dirent) :
  (forall rgn, In rgn (regions K) ->
     0 <= rgn_base rgn /\ 0 <= rgn_size rgn /\
     rgn_base rgn + rgn_size rgn + sizeof_dirent <= 2 ^ 64 /\
     0 <= rgn_storage rgn /\ rgn_storage rgn + rgn_size rgn <= 2 ^ 64) ->
  do_readdir hdr K path user_buf max_entries = Returns r tr ->
  In (ev_memcpy kdst ent) tr ->
  exists rgn,
    In rgn (regions K) /\
    Z.land (rgn_flags rgn) (region_flags_writable hdr) <> 0 /\
    rgn_storage rgn <= kdst /\
    kdst + sizeof_dirent <= rgn_storage rgn + rgn_size rgn.
Proof.
  intros Hwf Hrun Hin.
  destruct (do_readdir_events path user_buf max_entries) as (r' & tr' & Hrun' & Hev & _).
  rewrite Hrun in Hrun'. injection Hrun' as <- <-.
  rewrite List.Forall_forall in Hev.
  destruct (Hev _ Hin) as [[p Hp] | [Hl | (k & c & dst & Heq & Hdst & Hv)]]; [done | done |].
  injection Heq as -> ->.
  destruct (validate_dst_Some _ _ Hv) as (rgn & Hrgn & Hc & Hfit & Hw & ->).
  destruct (Hwf rgn Hrgn) as (Hb & Hs & He & Hst & Hse).
  exists rgn. split; [done |]. split; [done |].
  unfold region_contains, sizeof_dirent, wrap64 in *.
  rewrite (Z.mod_small (rgn_base rgn + rgn_size rgn)) in Hfit by lia.
  rewrite (Z.mod_small (dst + _)) in Hfit by lia.
  rewrite (Z.mod_small (dst - rgn_base rgn)) by lia.
  rewrite Z.mod_small by lia. lia.
Qed.

(** X5. Every record [do_readdir] copies is well formed: its name array
    has 64 bytes and ends with a NUL, its type is ['d'] or ['f'], its size
    fits 32 bits, and a record of type ['d'] has size 0. *)
Theorem copied_records_well_formed
    (path : option cstring) (user_buf max_entries : Z)
    (r : syscall_result) (tr : list event) (ent : dirent) :
  do_readdir hdr K path user_buf max_entries = Returns r tr ->
  In ent (records_of tr) ->
  length (ent_name ent) = 64%nat /\
  ent_name ent !! 63%nat = Some NUL /\
  (ent_type ent = "d"%char \/ ent_type ent = "f"%char) /\
  0 <= ent_size ent < 2 ^ 32 /\
  (ent_type ent = "d"%char -> ent_size ent = 0).
Proof.
  intros Hrun Hin.
  destruct (do_readdir_events path user_buf max_entries) as (r' & tr' & Hrun' & Hev & _).
  rewrite Hrun in Hrun'. injection Hrun' as <- <-.
  apply list_elem_of_In in Hin. unfold records_of in Hin.
  apply list_elem_of_omap in Hin as (e & He & Hent).
  apply list_elem_of_In in He. rewrite List.Forall_forall in Hev.
  destruct (Hev _ He) as [[p ->] | [-> | (k & c & dst & -> & _)]]; [done | done |].
  injection Hent as <-. cbn [dirent_of ent_name ent_type ent_size].
  split; [apply truncated_name_length |]. split.
  { unfold truncated_name. destruct (decide (64 <= length (node_name c))%nat).
    - rewrite lookup_app_r by (rewrite length_take; lia).
      rewrite length_take. by replace (63 - 63 `min` length (node_name c))%nat with 0%nat by lia.
    - rewrite lookup_app_r by lia.
      change (NUL :: replicate ?k NUL) with (replicate (S k) NUL).
      apply lookup_replicate_2. lia. }
  destruct (node_kind c); (split; [auto |]); (split; [| done]).
  - unfold wrap32. apply Z.mod_pos_bound. lia.
  - lia.
Qed.

End Enumeration.

(** ** Names read back *)

Lemma c_string_of_terminated (w r : list ascii) :
  Forall (fun c => c <> NUL) w -> c_string_of (w ++ NUL :: r) = w.
Proof.
  induction w as [| c w IH]; intros Hw; [reflexivity |].
  inversion Hw as [| ? ? Hc Hw']; subst. cbn.
  rewrite decide_False by done. by rewrite IH.
Qed.

Lemma c_string_of_truncated_name (nm : cstring) :
  Forall (fun c => c <> NUL) nm ->
  c_string_of (truncated_name nm) = take 63 nm.
Proof.
  intros Hnm. unfold truncated_name.
  destruct (decide (64 <= length nm)%nat).
  - apply c_string_of_terminated. by apply Forall_take.
  - rewrite take_ge by lia. by apply c_string_of_terminated.
Qed.

(** X6. Round trip of a name through a record: for a name without NUL
    bytes, the string read back from the name array of the record built
    for the child is the name itself when it is shorter than 64 bytes, and
    its first 63 bytes otherwise. *)
Theorem record_name_round_trip (child : fs_node) :
  Forall (fun c => c <> NUL) (node_name child) ->
  exists ent,
    make_dirent child = Some ent /\
    c_string_of (ent_name ent) = take 63 (node_name child) /\
    ((length (node_name child) < 64)%nat -> c_string_of (ent_name ent) = node_name child).
Proof.
  intros Hnm. exists (dirent_of child). split; [apply make_dirent_eq |].
  cbn [dirent_of ent_name]. rewrite (c_string_of_truncated_name _ Hnm).
  split; [reflexivity |]. intros Hlen. apply take_ge. lia.
Qed.

(** ** The dispatcher as a whole *)

Section Dispatcher_results.

Context (hdr : headers) (K : kernel).

Lemma do_open_cases (path : option cstring) (r : syscall_result) (tr : list event) :
  do_open K path = Returns r tr ->
  (code r <> syscall_result_code.ok /\ data r = 0 /\
   Forall (fun e => ~ creates_object e) tr) \/
  code r = syscall_result_code.ok.
Proof.
  unfold do_open. destruct path as [p |]; [| done].
  cbn [defined]. rewrite bind_ret, bind_emit.
  destruct (vfs_lookup K p) as [node |].
  - destruct (node_open K node) as [f |].
    + rewrite bind_emit. cbn. intros [= <- <-]. by right.
    + cbn. intros [= <- <-]. left. repeat split; [done |]. repeat constructor; auto.
  - cbn. intros [= <- <-]. left. repeat split; [done |]. repeat constructor; auto.
Qed.

Lemma do_readdir_creates_nothing (path : option cstring) (user_buf max_entries : Z)
    (r : syscall_result) (tr : list event) :
  do_readdir hdr K path user_buf max_entries = Returns r tr ->
  Forall (fun e => ~ creates_object e) tr /\
  (code r <> syscall_result_code.ok -> data r = 0).
Proof.
  intros Hrun.
  destruct (do_readdir_events hdr K path user_buf max_entries) as (r' & tr' & Hrun' & Hev & Hr).
  rewrite Hrun in Hrun'. injection Hrun' as <- <-. split; [| done].
  eapply Forall_impl; [exact Hev |].
  intros e [[p ->] | [-> | (k & c & dst & -> & _)]]; cbn; auto.
Qed.

(** X7. A call that does not return [ok] returns data 0, unless its result
    is the one an object's own operation produced (which the dispatcher
    hands on as it is). *)
Theorem failure_carries_no_data
    (index arg0 arg1 arg2 arg3 : Z) (r : syscall_result) (tr : list event) :
  handle_syscall hdr K index arg0 arg1 arg2 arg3 = Returns r tr ->
  code r <> syscall_result_code.ok ->
  data r = 0 \/
  exists op o res args,
    syscall_of_index hdr index = Some op /\ In op handle_consuming /\
    objects K !! arg0 = Some o /\
    object_operation op o arg1 arg2 arg3 = Some (res, args) /\
    r = operation_result_to_syscall_result hdr res.
Proof.
  unfold handle_syscall. intros Hrun Hcode.
  destruct (syscall_of_index hdr index) as [op |] eqn:Hop;
    [| injection Hrun as <- <-; by left].
  destruct op;
    try (injection Hrun as <- <-; by left);
    try (destruct (objects K !! arg0) as [o |] eqn:Hobj;
         [ injection Hrun as <- <-; right;
           eexists _, o, _, _; split; [reflexivity |];
           split; [cbn; tauto |]; split; [reflexivity |]; split; reflexivity
         | injection Hrun as <- <-; by left ]).
  - (* open *)
    destruct (do_open_cases _ _ _ Hrun) as [(_ & Hd & _) | Hok]; [by left | done].
  - (* alloc_mem *)
    rewrite bind_emit in Hrun.
    destruct (alloc_region K _ _); [| done]. injection Hrun as <- <-. done.
  - (* start_process *)
    rewrite !bind_emit in Hrun.
    destruct (create_process K arg0 arg1); injection Hrun as <- <-; [done | by left].
  - (* start_thread *)
    rewrite bind_emit in Hrun.
    destruct (create_thread K arg0 arg1); [| done]. injection Hrun as <- <-. done.
  - (* readdir *)
    left. by apply (do_readdir_creates_nothing _ _ _ _ _ Hrun).
Qed.

(** X8. A new object enters the caller's handle table only in a call that
    returns [ok]: whenever the trace of [handle_syscall] holds the creation
    of a file, process or thread object, the result code is [ok]. *)
Theorem object_created_only_on_success
    (index arg0 arg1 arg2 arg3 : Z) (r : syscall_result) (tr : list event) (e : event) :
  handle_syscall hdr K index arg0 arg1 arg2 arg3 = Returns r tr ->
  In e tr ->
  creates_object e ->
  code r = syscall_result_code.ok.
Proof.
  unfold handle_syscall. intros Hrun Hin Hcreate.
  assert (Hno : forall t : list event,
            Forall (fun e => ~ creates_object e) t -> In e t -> False).
  { intros t Ht Hi. rewrite List.Forall_forall in Ht. by apply (Ht e). }
  destruct (syscall_of_index hdr index) as [op |] eqn:Hop;
    [| injection Hrun as <- <-; destruct Hin as [<- | []]; destruct Hcreate].
  destruct op;
    try (injection Hrun as <- <-; reflexivity);
    try (destruct (objects K !! arg0) as [o |] eqn:Hobj;
         injection Hrun as <- <-;
         [ destruct Hin as [<- | []]; destruct Hcreate | destruct Hin ]).
  - (* open *)
    destruct (do_open_cases _ _ _ Hrun) as [(_ & _ & Hnone) | Hok]; [| done].
    destruct (Hno _ Hnone Hin).
  - (* alloc_mem *)
    rewrite bind_emit in Hrun.
    destruct (alloc_region K _ _); [| done]. by injection Hrun as <- <-.
  - (* start_process *)
    rewrite !bind_emit in Hrun.
    destruct (create_process K arg0 arg1); injection Hrun as <- <-; [done |].
    destruct Hin as [<- | [<- | []]]; destruct Hcreate.
  - (* start_thread *)
    rewrite bind_emit in Hrun.
    destruct (create_thread K arg0 arg1); [| done]. by injection Hrun as <- <-.
  - (* readdir *)
    destruct (do_readdir_creates_nothing _ _ _ _ _ Hrun) as [Hnone _].
    destruct (Hno _ Hnone Hin).
Qed.

End Dispatcher_results.

(** ** Every command line of [ls] *)

Section Ls_lines.

Implicit Types (s w rest : cstring).

Lemma copy_word_result s :
  forall (room : nat) w rest,
    copy_word s room = (w, rest) ->
    s = w ++ rest /\ (length w <= room)%nat /\ Forall (fun c => c <> " "%char) w.
Proof.
  induction s as [| c s IH]; intros room w rest Hcopy.
  - cbn in Hcopy. injection Hcopy as <- <-. repeat split; [cbn; lia | constructor].
  - destruct room as [| room]; cbn in Hcopy.
    { injection Hcopy as <- <-. repeat split; [cbn; lia | constructor]. }
    destruct (decide (c = " "%char)) as [-> | Hc].
    { injection Hcopy as <- <-. repeat split; [cbn; lia | constructor]. }
    destruct (copy_word s room) as [w' r'] eqn:Hrec.
    injection Hcopy as <- <-.
    destruct (IH _ _ _ Hrec) as (-> & Hlen & Hw).
    repeat split; [cbn; lia | by constructor].
Qed.

Lemma copy_word_starts (c : ascii) s (room : nat) :
  c <> " "%char -> exists w rest, copy_word (c :: s) (S room) = (c :: w, rest).
Proof.
  intros Hc. cbn. rewrite decide_False by done.
  destruct (copy_word s room) as [w rest]. by exists w, rest.
Qed.

Lemma copy_word_full w rest :
  forall room : nat,
    Forall (fun c => c <> " "%char) w ->
    (room <= length w)%nat ->
    copy_word (w ++ rest) room = (take room w, drop room w ++ rest).
Proof.
  induction w as [| c w IH]; intros room Hw Hlen.
  - cbn in Hlen. replace room with 0%nat by lia. by destruct rest.
  - inversion Hw as [| ? ? Hc Hw']; subst.
    destruct room as [| room]; [reflexivity |].
    cbn. rewrite decide_False by done.
    rewrite IH; [done | done | cbn in Hlen; lia].
Qed.

Lemma skip_spaces_cons s (c : ascii) s' :
  skip_spaces s = c :: s' -> c <> " "%char.
Proof. intros Heq ->. by destruct (skip_spaces_head s s'). Qed.

Lemma skip_spaces_word (c : ascii) s : c <> " "%char -> skip_spaces (c :: s) = c :: s.
Proof. intros Hc. cbn. by rewrite decide_False. Qed.

(** X9. For every command line, null included, [main] either prints the
    usage message and exits with status 1 without listing anything, or
    calls [ls] exactly once and exits with status 0; the flag it passes is
    0 or 1 and the path has at most 127 bytes and no space, so that the two
    128-byte argument arrays are never overrun. *)
Theorem main_lists_once_or_fails (cmdline : option cstring) :
  main cmdline = ([console_write usage], 1) \/
  exists long_flag path,
    main cmdline = ([call_ls long_flag path], 0) /\
    (long_flag = 0 \/ long_flag = 1) /\
    (length path <= 127)%nat /\
    Forall (fun c => c <> " "%char) path.
Proof.
  destruct cmdline as [cmdline |]; cbn [main].
  2:{ right. exists 0, []. repeat split; [by left | cbn; lia | constructor]. }
  destruct (decide (length cmdline = 0%nat)).
  { right. exists 0, []. repeat split; [by left | cbn; lia | constructor]. }
  change (128 - 1)%nat with 127%nat.
  destruct (copy_word cmdline 127) as [arg1 rest1] eqn:H1.
  destruct (copy_word (skip_spaces rest1) 127) as [arg2 rest3] eqn:H2.
  destruct (copy_word_result _ _ _ _ H1) as (_ & Hlen1 & Hw1).
  destruct (copy_word_result _ _ _ _ H2) as (_ & Hlen2 & Hw2).
  destruct arg2 as [| c2 arg2]; destruct (decide (arg1 = lit "-l")).
  - right. exists 1, []. repeat split; [by right | cbn; lia | constructor].
  - right. exists 0, arg1. repeat split; [by left | done | done].
  - right. exists 1, (c2 :: arg2). repeat split; [by right | done | done].
  - by left.
Qed.

(** X10. Tokens after the second are ignored: for a command line that does
    not begin with a space and whose first two tokens have at most 127
    bytes each, [main] does what the dispatch on the first two tokens
    prescribes, whatever follows them. *)
Theorem main_reads_two_tokens (cmdline : cstring) :
  head cmdline <> Some " "%char ->
  Forall (fun t : cstring => (length t <= 127)%nat) (take 2 (tokens cmdline)) ->
  ls_dispatch (take 2 (tokens cmdline)) = Some (main (Some cmdline)).
Proof.
  intros Hlead Hshort. unfold main.
  destruct (decide (length cmdline = 0%nat)) as [Hempty | Hnonempty].
  { destruct cmdline; [reflexivity | done]. }
  change (128 - 1)%nat with 127%nat.
  destruct (split_word cmdline) as (w1 & rest1 & -> & Hw1 & Hrest1).
  destruct (split_word (skip_spaces rest1)) as (w2 & rest3 & Heq2 & Hw2 & Hrest3).
  assert (Hne1 : w1 <> []).
  { intros ->. destruct Hrest1 as [-> | [r ->]]; [done | by destruct Hlead]. }
  assert (Htok : tokens (w1 ++ rest1) =
                 w1 :: (if decide (w2 = []) then [] else [w2]) ++ tokens rest3).
  { rewrite (tokens_word w1 rest1 Hw1 Hrest1), <- (tokens_skip_spaces rest1), Heq2.
    rewrite (tokens_word w2 rest3 Hw2 Hrest3). by rewrite decide_False. }
  rewrite Htok in Hshort |- *. clear Htok.
  rewrite copy_word_word; [| done | | done].
  2:{ cbn in Hshort. by apply Forall_cons_1 in Hshort as [? _]. }
  cbv beta iota.
  destruct (decide (w2 = [])) as [-> | Hne2].
  - pose proof (skipped_no_word _ _ Heq2 Hrest3) as Hs.
    rewrite Hs in Heq2 |- *. cbn in Heq2. subst rest3. cbn.
    by destruct (decide (w1 = _)).
  - rewrite Heq2. rewrite copy_word_word; [| done | | done].
    2:{ cbn in Hshort. apply Forall_cons_1 in Hshort as [_ Hshort].
        by apply Forall_cons_1 in Hshort as [? _]. }
    destruct w2 as [| c2 w2]; [done |]. cbn.
    by destruct (decide (w1 = _)).
Qed.

(** X11. A command line that begins with a space and holds a token is a
    usage error: the first argument is empty, the token is taken as the
    second argument, the usage message is printed and the status is 1. *)
Theorem main_leading_space (line : cstring) :
  tokens line <> [] ->
  main (Some (" "%char :: line)) = ([console_write usage], 1).
Proof.
  intros Htok. unfold main. rewrite decide_False by done.
  change (128 - 1)%nat with 127%nat.
  change (copy_word (" "%char :: line) 127) with (@nil ascii, " "%char :: line).
  cbv beta iota. change (skip_spaces (" "%char :: line)) with (skip_spaces line).
  destruct (skip_spaces line) as [| c s] eqn:Hskip.
  { rewrite <- tokens_skip_spaces, Hskip in Htok. by destruct Htok. }
  destruct (copy_word_starts c s 126 (skip_spaces_cons _ _ _ Hskip)) as (w & rest & ->).
  reflexivity.
Qed.

(** X12. A command line whose first word has more than 127 bytes is a usage
    error: the first 127 bytes fill the first argument, the bytes that
    follow are taken as the second argument, the usage message is printed
    and the status is 1. *)
Theorem main_long_first_word (word rest : cstring) :
  Forall (fun c => c <> " "%char) word ->
  (127 < length word)%nat ->
  main (Some (word ++ rest)) = ([console_write usage], 1).
Proof.
  intros Hw Hlen. unfold main.
  rewrite decide_False by (rewrite length_app; lia).
  change (128 - 1)%nat with 127%nat.
  rewrite copy_word_full by (done || lia). cbv beta iota.
  destruct (drop 127 word) as [| c tail] eqn:Hdrop.
  { apply (f_equal length) in Hdrop. rewrite length_drop in Hdrop. cbn in Hdrop. lia. }
  assert (Hc : c <> " "%char).
  { assert (Hin : c ∈ word).
    { rewrite <- (take_drop 127 word), Hdrop. apply elem_of_app. right. by left. }
    rewrite Forall_forall in Hw. by apply Hw. }
  cbn [app]. rewrite skip_spaces_word by done.
  destruct (copy_word_starts c (tail ++ rest) 126 Hc) as (w & r & ->).
  rewrite decide_False; [reflexivity |].
  intros Heq. apply (f_equal length) in Heq.
  rewrite length_take, Nat.min_l in Heq by lia. discriminate Heq.
Qed.

End Ls_lines.

(** ** [ls] over the system call *)





(** ** Concrete cases of the further properties *)

Lemma readdir_on_directory_witness :
  exists (n : nat) (r : syscall_result),
    do_readdir Example.hdr Example.K (Some (lit "/docs")) 69552 256 =
      Returns r (ev_lookup (lit "/docs") :: ev_ensure_loaded
                 :: copies (kernel_dst Example.hdr Example.K 69552) 0
                      (take n (node_children Example.docs))) /\
    (r = result syscall_result_code.ok (Z.of_nat n) \/
     r = result syscall_result_code.not_supported 0 /\
     validate_dst Example.hdr Example.K (dst_address_of 69552 n) = None).
Proof.
  destruct (readdir_on_directory Example.hdr Example.K (lit "docs") Example.docs
              69552 256 eq_refl eq_refl ltac:(lia))
    as (n & r & Hrun & _ & [[Hok _] | (Hbad & _ & Hnone)]);
    exists n, r; (split; [exact Hrun |]); [left | right]; auto.
Defined.

Lemma do_readdir_count_witness :
  exists r tr,
    do_readdir Example.hdr Example.K (Some (lit "/docs")) 65536 1 = Returns r tr /\
    (code r = syscall_result_code.ok -> data r = Z.of_nat (length (records_of tr))) /\
    (code r <> syscall_result_code.ok -> data r = 0) /\
    Z.of_nat (length (records_of tr)) <= 1.
Proof.
  apply (do_readdir_count Example.hdr Example.K (Some (lit "/docs")) 65536 1). lia.
Defined.

Lemma copy_starts_in_writable_region_witness :
  exists dst rgn,
    In rgn (regions Example.K) /\
    region_contains rgn dst /\
    Z.land (rgn_flags rgn) (region_flags_writable Example.hdr) <> 0 /\
    1048648 = wrap64 (rgn_storage rgn + wrap64 (dst - rgn_base rgn)).
Proof.
  apply (copy_starts_in_writable_region Example.hdr Example.K (Some (lit "/docs")) 65536 256
           (result syscall_result_code.ok 2)
           [ev_lookup (lit "/docs"); ev_ensure_loaded;
            ev_memcpy 1048576 (dirent_of Example.a_txt);
            ev_memcpy 1048648 (dirent_of Example.sub)]
           1048648 (dirent_of Example.sub)).
  - vm_compute. reflexivity.
  - cbn. auto.
Defined.

Lemma copy_inside_region_storage_witness :
  exists rgn,
    In rgn (regions Example.K) /\
    Z.land (rgn_flags rgn) (region_flags_writable Example.hdr) <> 0 /\
    rgn_storage rgn <= 1048648 /\
    1048648 + sizeof_dirent <= rgn_storage rgn + rgn_size rgn.
Proof.
  apply (copy_inside_region_storage Example.hdr Example.K (Some (lit "/docs")) 65536 256
           (result syscall_result_code.ok 2)
           [ev_lookup (lit "/docs"); ev_ensure_loaded;
            ev_memcpy 1048576 (dirent_of Example.a_txt);
            ev_memcpy 1048648 (dirent_of Example.sub)]
           1048648 (dirent_of Example.sub)).
  - intros rgn [<- | []]. compute_done.
  - vm_compute. reflexivity.
  - cbn. auto.
Defined.

Lemma copied_records_well_formed_witness :
  length (ent_name (dirent_of Example.sub)) = 64%nat /\
  ent_name (dirent_of Example.sub) !! 63%nat = Some NUL /\
  (ent_type (dirent_of Example.sub) = "d"%char \/
   ent_type (dirent_of Example.sub) = "f"%char) /\
  0 <= ent_size (dirent_of Example.sub) < 2 ^ 32 /\
  (ent_type (dirent_of Example.sub) = "d"%char -> ent_size (dirent_of Example.sub) = 0).
Proof.
  apply (copied_records_well_formed Example.hdr Example.K (Some (lit "/docs")) 65536 256
           (result syscall_result_code.ok 2)
           [ev_lookup (lit "/docs"); ev_ensure_loaded;
            ev_memcpy 1048576 (dirent_of Example.a_txt);
            ev_memcpy 1048648 (dirent_of Example.sub)]).
  - vm_compute. reflexivity.
  - cbn. auto.
Defined.

Lemma record_name_round_trip_witness :
  exists ent,
    make_dirent Example.a_txt = Some ent /\
    c_string_of (ent_name ent) = take 63 (lit "a.txt") /\
    ((length (lit "a.txt") < 64)%nat -> c_string_of (ent_name ent) = lit "a.txt").
Proof.
  apply (record_name_round_trip Example.a_txt). compute_done.
Defined.

Lemma failure_carries_no_data_witness :
  data (result syscall_result_code.not_found 0) = 0 \/
  exists op o res args,
    syscall_of_index Example.hdr 5 = Some op /\ In op handle_consuming /\
    objects Example.K !! 7 = Some o /\
    object_operation op o 0 16 0 = Some (res, args) /\
    result syscall_result_code.not_found 0 =
      operation_result_to_syscall_result Example.hdr res.
Proof.
  apply (failure_carries_no_data Example.hdr Example.K 5 7 0 16 0 _ []).
  - reflexivity.
  - discriminate.
Defined.

Lemma object_created_only_on_success_witness :
  code (result syscall_result_code.ok 4) = syscall_result_code.ok.
Proof.
  apply (object_created_only_on_success Example.hdr system_with_files 1 4096 0 0 0
           (result syscall_result_code.ok 4)
           [ev_lookup (lit "/docs/a.txt"); ev_create_file_object 7]
           (ev_create_file_object 7)).
  - reflexivity.
  - cbn. auto.
  - exact I.
Defined.

Lemma main_reads_two_tokens_witness :
  ls_dispatch (take 2 (tokens (lit "-l /docs and more"))) =
    Some (main (Some (lit "-l /docs and more"))).
Proof.
  apply (main_reads_two_tokens (lit "-l /docs and more")).
  - discriminate.
  - compute_done.
Defined.

Lemma main_leading_space_witness :
  main (Some (" "%char :: lit "/docs")) = ([console_write usage], 1).
Proof. apply (main_leading_space (lit "/docs")). discriminate. Defined.

Lemma main_long_first_word_witness :
  main (Some (replicate 128 "a"%char ++ lit " /docs")) = ([console_write usage], 1).
Proof.
  apply (main_long_first_word (replicate 128 "a"%char) (lit " /docs")).
  - compute_done.
  - cbn. lia.
Defined.


Lemma validate_dst_exact_witness :
  exists rgn,
    get_region_from_address Example.K 65608 = Some rgn /\
    region_contains rgn 65608 /\
    65608 + sizeof_dirent <= rgn_base rgn + rgn_size rgn /\
    Z.land (rgn_flags rgn) (region_flags_writable Example.hdr) <> 0 /\
    1048648 = wrap64 (kernel_address rgn 65608).
Proof.
  pose proof (validate_dst_exact Example.hdr Example.K 65608) as Hexact.
  change (validate_dst Example.hdr Example.K 65608) with (Some 1048648) in Hexact.
  apply Hexact.
  - lia.
  - compute_done.
  - intros rgn [<- | []]. compute_done.
Defined.
